(** * mp4len: duration of an MP4 video, read from its [mvhd] atom

    A shallow embedding of [mp4len.c] and the properties of its three
    stages: the magic-number check ([has_mp4_magic]), the block-wise search
    for the movie header ([move_to_header]) and the decoding of the header
    fields ([get_mp4_len]), driven by [main].

    Platform: the data model is the one the source's comments name, x86-64
    with the LP64 convention: [int] has 32 bits, [long], [unsigned long] and
    [unsigned long long] have 64, memory is little endian, signed shifts
    and conversions wrap in two's complement, [float] is IEEE binary32 and
    [double] is IEEE binary64.

    A stream is what [fopen] accepted, a regular file given by its bytes or
    a directory, with a cursor.  On a regular file a stdio call fails only
    for the reasons the C library gives there: a seek to a negative offset,
    a read at the end of the data; reads on a directory deliver nothing.
    Errors of the medium under a regular file (a failing disk) and a
    failing [malloc] are left out. *)

From Stdlib Require Import Strings.String Strings.Byte.
From Stdlib Require Import ZArith List Lia Bool.
From Stdlib Require Import Floats.SpecFloat.
Import ListNotations.

Local Open Scope Z_scope.

(** * Part I: the program *)

(** ** Machine integers *)

Module CInt.

(** Conversion to [int] (32 bits, signed). *)
Definition to_int (z : Z) : Z := (z + 2 ^ 31) mod 2 ^ 32 - 2 ^ 31.

(** Conversion to [long] and [long long] (64 bits, signed). *)
Definition to_long (z : Z) : Z := (z + 2 ^ 63) mod 2 ^ 64 - 2 ^ 63.

(** Conversion to [unsigned long] and [unsigned long long] (64 bits). *)
Definition to_ulong (z : Z) : Z := z mod 2 ^ 64.

(** The value of an [unsigned char]. *)
Definition u8 (b : byte) : Z := Z.of_N (Byte.to_N b).

End CInt.

Import CInt.

(** ** The stdio stream *)

Module Stdio.

(** What the program has transferred from the file: block reads and
    single characters, with the offset they started at. *)
Inductive io_event : Type :=
| Read (off len : Z)
| Getc (off : Z).

(** What a path that [fopen] accepts can name: a regular file, with its
    bytes, or a directory.  On Linux [fopen(path, "rb")] succeeds on a
    directory and seeks on the stream succeed too; a seek to the end lands
    on [end_offset] (the largest [long] on ext4), but every read is
    refused and delivers nothing. *)
Inductive medium : Type :=
| Bytes (c : list byte)
| Directory (end_offset : Z).

(** [FILE *]: what was opened, the cursor, and the transfers so far (most
    recent last). *)
Record FILE : Type := mkStream {
  source : medium;
  position : Z;
  trace : list io_event
}.

(** A stream on a regular file. *)
Abbreviation mkFILE c p t := (mkStream (Bytes c) p t).

(** The bytes that reads can deliver: none for a directory. *)
Definition contents (f : FILE) : list byte :=
  match source f with
  | Bytes c => c
  | Directory _ => []
  end.

Definition fopen (bytes : list byte) : FILE := mkFILE bytes 0 [].

Definition fopen_directory (end_offset : Z) : FILE :=
  mkStream (Directory end_offset) 0 [].

(** The number of bytes that can be read. *)
Definition file_size (f : FILE) : Z := Z.of_nat (length (contents f)).

(** The offset [SEEK_END] counts from: the size of a regular file. *)
Definition end_offset_of (f : FILE) : Z :=
  match source f with
  | Bytes c => Z.of_nat (length c)
  | Directory end_offset => end_offset
  end.

(** A computation either returns to its caller or leaves the process
    through [exit(code)], after a message on standard error. *)
Inductive outcome (A : Type) : Type :=
| Ret (a : A) (f : FILE)
| Exit (code : Z) (msg : string) (f : FILE).

Arguments Ret {A} a f.
Arguments Exit {A} code msg f.

Definition M (A : Type) : Type := FILE -> outcome A.

Definition ret {A : Type} (a : A) : M A := fun f => Ret a f.

Definition bind {A B : Type} (c : M A) (k : A -> M B) : M B :=
  fun f =>
    match c f with
    | Ret a f' => k a f'
    | Exit code msg f' => Exit code msg f'
    end.

Definition exit {A : Type} (code : Z) (msg : string) : M A :=
  fun f => Exit code msg f.

Inductive whence : Type := SEEK_SET | SEEK_CUR | SEEK_END.

(** [fseek]: 0 on success; -1, with the cursor unmoved, when the target
    would be negative.  A target past the end is allowed. *)
Definition fseek (offset : Z) (w : whence) : M Z :=
  fun f =>
    let base :=
      match w with
      | SEEK_SET => 0
      | SEEK_CUR => position f
      | SEEK_END => end_offset_of f
      end in
    let target := base + offset in
    if target <? 0 then Ret (-1) f
    else Ret 0 (mkStream (source f) target (trace f)).

Definition ftell : M Z := fun f => Ret (position f) f.

(** The bytes from the cursor on. *)
Definition unread (f : FILE) : list byte :=
  skipn (Z.to_nat (position f)) (contents f).

(** [fread(buf, 1, n, fptr)]: the bytes delivered, at most [n], fewer only
    at the end of the data, none from a directory; the return value of the
    C call is their number. *)
Definition fread (n : Z) : M (list byte) :=
  fun f =>
    let got := firstn (Z.to_nat n) (unread f) in
    let len := Z.of_nat (length got) in
    Ret got (mkStream (source f) (position f + len)
                    (trace f ++ [Read (position f) len])).

(** [fgetc]: the next byte as an [unsigned char] widened to [int], or
    [EOF] with the cursor unmoved. *)
Definition EOF : Z := -1.

Definition fgetc : M Z :=
  fun f =>
    match unread f with
    | [] => Ret EOF f
    | b :: _ =>
        Ret (u8 b) (mkStream (source f) (position f + 1)
                           (trace f ++ [Getc (position f)]))
    end.

End Stdio.

Import Stdio.

Declare Scope stdio_scope.
Delimit Scope stdio_scope with stdio.
Notation "x <- c ;; k" := (bind c (fun x => k))
  (at level 61, c at next level, right associativity) : stdio_scope.
Notation "c ;;; k" := (bind c (fun _ => k))
  (at level 61, right associativity) : stdio_scope.
Local Open Scope stdio_scope.

(** ** Constants *)

Definition MIN_SIZE : Z := 51.
Definition BLOCK_SIZE : Z := 16384.

(** ** has_mp4_magic *)

(** The [unsigned long long] member of a union over [char c[8]], on a
    little-endian machine: [c[0]] is the least significant byte. *)
Fixpoint union_ull (c : list byte) : Z :=
  match c with
  | [] => 0
  | b :: rest => u8 b + 256 * union_ull rest
  end.

Definition has_mp4_magic : M Z :=
  r <- fseek 4 SEEK_SET ;;
  if negb (r =? 0) then exit 10 "Problem accessing file"
  else
    c <- fread 8 ;;
    if negb (Z.of_nat (length c) =? 8) then exit 11 "Problem reading file"
    else
      let ull := union_ull c in
      if (ull =? 0x6D6F736970797466) || (ull =? 0x3234706D70797466)
      then ret 1
      else ret 0.

(** ** move_to_header *)

(** [char hdr[4] = {'m', 'v', 'h', 'd'}], indexed by the match streak. *)
Definition hdr : list byte := [x6d; x76; x68; x64].

Definition hdr_at (i : Z) : byte := nth (Z.to_nat i) hdr x00.

(** The [for (jj ...)] loop over the block just read.  [inl jj]: the streak
    reached 4 at index [jj]; [inr chars_matching]: the block is exhausted
    with that streak. *)
Fixpoint search_block (buf : list byte) (jj chars_matching : Z) : Z + Z :=
  match buf with
  | [] => inr chars_matching
  | b :: rest =>
      if Byte.eqb b (hdr_at chars_matching) then
        let chars_matching := chars_matching + 1 in
        if chars_matching =? 4 then inl jj
        else search_block rest (jj + 1) chars_matching
      else
        (* no match *)
        search_block rest (jj + 1) 0
  end.

(** The [while] loop that follows a streak past the end of the block, one
    [fgetc] per round.  The streak grows by one each round, so [rounds] = 3
    rounds are all the loop can make from a streak of at least 1. *)
Fixpoint check_remaining (rounds : nat) (chars_matching : Z) : M Z :=
  if negb (chars_matching =? 0) && negb (chars_matching =? 4) then
    match rounds with
    | O => ret chars_matching
    | S rounds' =>
        c <- fgetc ;;
        if c =? u8 (hdr_at chars_matching)
        then check_remaining rounds' (chars_matching + 1)
        else ret 0
    end
  else ret chars_matching.

(** [n_blocks]: number of blocks to cover the file. *)
Definition n_blocks_of (fsize : Z) : Z :=
  let n_blocks := Z.quot fsize BLOCK_SIZE in
  if Z.rem fsize BLOCK_SIZE >? 0 then n_blocks + 1 else n_blocks.

(** The offset argument of the [fseek] of iteration [xx], computed in
    [unsigned long] and converted to the [long] parameter. *)
Definition odd_seek_offset (n_blocks xx : Z) : Z :=
  let ii := to_ulong (n_blocks - 1 - Z.quot (to_ulong (xx - 1)) 2) in
  to_long (to_ulong (to_ulong (ii - n_blocks) * BLOCK_SIZE)).

Definition even_seek_offset (xx : Z) : Z :=
  let ii := Z.quot xx 2 in
  to_long (to_ulong (ii * BLOCK_SIZE)).

(** One round of the [for (xx ...)] loop.  [Some 0]: the function returns 0
    from inside the loop; [None]: "no match, try next block". *)
Definition scan_block (fsize n_blocks xx : Z) : M (option Z) :=
  (if negb (Z.rem xx 2 =? 0) then
     (* odd iteration, work at end of file *)
     r <- fseek (odd_seek_offset n_blocks xx) SEEK_END ;;
     if negb (r =? 0) then exit 21 "Problem accessing file" else ret tt
   else
     (* even iteration, work at beginning of file *)
     r <- fseek (even_seek_offset xx) SEEK_SET ;;
     if negb (r =? 0) then exit 22 "Problem accessing file" else ret tt) ;;;
  (* read in block *)
  buf <- fread BLOCK_SIZE ;;
  let buf_len := Z.of_nat (length buf) in
  if (buf_len <? BLOCK_SIZE) && (buf_len <? fsize)
  then exit 23 "Problem reading file"
  else
    (* search the block for header *)
    match search_block buf 0 0 with
    | inl jj =>
        r <- fseek (- buf_len + jj + 1) SEEK_CUR ;;
        if negb (r =? 0) then exit 24 "Problem accessing file"
        else ret (Some 0)
    | inr chars_matching =>
        chars_matching <-
          (if chars_matching >? 0
           then check_remaining 3 chars_matching
           else ret chars_matching) ;;
        if chars_matching =? 4 then ret (Some 0) else ret None
    end.

(** The [for] loop: [todo] rounds are left, the next one is [xx]. *)
Fixpoint scan_blocks (todo : nat) (fsize n_blocks xx : Z) : M Z :=
  match todo with
  | O => ret 1 (* no match found in file *)
  | S todo' =>
      r <- scan_block fsize n_blocks xx ;;
      match r with
      | Some v => ret v
      | None => scan_blocks todo' fsize n_blocks (xx + 1)
      end
  end.

Definition move_to_header (fsize : Z) : M Z :=
  let n_blocks := n_blocks_of fsize in
  scan_blocks (Z.to_nat n_blocks) fsize n_blocks 0.

(** ** get_mp4_len *)

Module Float.

(** [(double)] of an unsigned 64-bit integer: binary64, round to nearest
    even. *)
Definition double_of_ullong (n : Z) : spec_float :=
  binary_normalize 53 1024 n 0 false.

(** [(float)] of an unsigned 64-bit integer: binary32. *)
Definition float_of_ulong (n : Z) : spec_float :=
  binary_normalize 24 128 n 0 false.

(** The promotion of a [float] operand to [double], which is exact. *)
Definition double_of_float (x : spec_float) : spec_float :=
  match x with
  | S754_finite s m e => binary_normalize 53 1024 (cond_Zopp s (Zpos m)) e s
  | _ => x
  end.

Definition double_div (x y : spec_float) : spec_float := SFdiv 53 1024 x y.

End Float.

(** [buf[3] + (buf[2]<<8) + (buf[1]<<16) + (buf[0]<<24)] on four
    [unsigned char], each promoted to [int]: the sum is an [int]. *)
Definition int_of_be4 (b0 b1 b2 b3 : byte) : Z :=
  to_int (to_int (to_int (u8 b3 + to_int (Z.shiftl (u8 b2) 8))
                  + to_int (Z.shiftl (u8 b1) 16))
          + to_int (Z.shiftl (u8 b0) 24)).

(** The assignment to [unsigned long unit_per_sec]. *)
Definition unit_per_sec_of (buf : list byte) : Z :=
  to_ulong (int_of_be4 (nth 0 buf x00) (nth 1 buf x00)
                       (nth 2 buf x00) (nth 3 buf x00)).

(** The assignment to [unsigned long long len_unit]: the [int] sum of the
    low four bytes is converted to [unsigned long long] by the first
    addition of a 64-bit operand. *)
Definition len_unit_of (buf : list byte) : Z :=
  let low := int_of_be4 (nth 4 buf x00) (nth 5 buf x00)
                        (nth 6 buf x00) (nth 7 buf x00) in
  to_ulong (to_ulong (to_ulong (to_ulong (to_ulong low
    + to_ulong (Z.shiftl (u8 (nth 3 buf x00)) 32))
    + to_ulong (Z.shiftl (u8 (nth 2 buf x00)) 40))
    + to_ulong (Z.shiftl (u8 (nth 1 buf x00)) 48))
    + to_ulong (Z.shiftl (u8 (nth 0 buf x00)) 56)).

(** [len_sec = (double)len_unit / (float)unit_per_sec]. *)
Definition len_sec_of (len_unit unit_per_sec : Z) : spec_float :=
  Float.double_div (Float.double_of_ullong len_unit)
                   (Float.double_of_float (Float.float_of_ulong unit_per_sec)).

(** Lines 181-198: the version byte and the skip over flags and dates.
    Returns [version]. *)
Definition read_version_and_skip : M Z :=
  version <- fgetc ;;
  if version =? 1 then
    r <- fseek 19 SEEK_CUR ;;
    if negb (r =? 0) then exit 31 "Problem accessing file" else ret version
  else
    r <- fseek 11 SEEK_CUR ;;
    if negb (r =? 0) then exit 32 "Problem accessing file" else ret version.

(** Lines 200-236: the two fields, as [(unit_per_sec, len_unit)]. *)
Definition read_fields (version : Z) : M (Z * Z) :=
  buf <- fread 4 ;;
  if negb (Z.of_nat (length buf) =? 4) then exit 33 "Problem reading file"
  else
    let unit_per_sec := unit_per_sec_of buf in
    buf <-
      (if version =? 1 then
         b <- fread 8 ;;
         if negb (Z.of_nat (length b) =? 8)
         then exit 34 "Problem reading file"
         else ret b
       else
         b <- fread 4 ;;
         if negb (Z.of_nat (length b) =? 4)
         then exit 34 "Problem reading file"
         else ret ([x00; x00; x00; x00] ++ b)) ;;
    ret (unit_per_sec, len_unit_of buf).

Definition get_mp4_len (fsize : Z) : M spec_float :=
  r <- move_to_header fsize ;;
  if negb (r =? 0) then exit 30 "Could not find header."
  else
    version <- read_version_and_skip ;;
    fields <- read_fields version ;;
    ret (len_sec_of (snd fields) (fst fields)).

(** ** main *)

(** What a run leaves behind: the exit status, the number printed on
    standard output if any, the lines on standard error (without the
    program name, the path and the size that [fprintf] puts into them), and
    the transfers made on the file. *)
Record run : Type := mkRun {
  status : Z;
  stdout : option spec_float;
  stderr : list string;
  transfers : list io_event
}.

(** [main] from the return of [fopen(argv[1], "rb")] on: [fptr] is the
    stream, or [None] when the path cannot be opened.  A failure of the
    first [fseek] only leaves a line on standard error; the run goes on. *)
Definition main_opened (argc : Z) (fptr : option FILE) : run :=
  if argc <? 2 then
    mkRun 1 None
          ["missing argument"%string;
           EmptyString;
           "Prints the length of an mp4 video in seconds."%string;
           "mp4len version 2023-09-05"%string;
           "Copyright (C) 2023 Nicholas A. Masluk, nick@randombytes.net"%string]
          []
  else
    match fptr with
    | None => mkRun 2 None ["no such file"%string] []
    | Some fptr =>
        (* get file size *)
        match (r <- fseek 0 SEEK_END ;; fsize <- ftell ;; ret (r, fsize)) fptr
        with
        | Exit code msg f => mkRun code None [msg] (trace f)
        | Ret (r, fsize) fptr =>
            let said := if negb (r =? 0)
                        then ["problem accessing file"%string] else [] in
            (* check file size *)
            if fsize <? MIN_SIZE then
              mkRun 3 None (said ++ ["file size too small"%string])
                    (trace fptr)
            else
              (* check for magic number matching MP4 file *)
              match has_mp4_magic fptr with
              | Exit code msg f => mkRun code None (said ++ [msg]) (trace f)
              | Ret magic fptr =>
                  if magic =? 0 then
                    mkRun 4 None (said ++ ["MP4 file format not valid"%string])
                          (trace fptr)
                  else
                    (* get video length *)
                    match get_mp4_len fsize fptr with
                    | Exit code msg f =>
                        mkRun code None (said ++ [msg]) (trace f)
                    | Ret vlen f => mkRun 0 (Some vlen) said (trace f)
                    end
              end
        end
    end.

(** [main] on a path that names a regular file with the bytes [opened], or
    nothing that can be opened. *)
Definition main (argc : Z) (opened : option (list byte)) : run :=
  main_opened argc (option_map fopen opened).

(** * Part II: vocabulary of the statements *)

(** ** Observations on outcomes and traces *)

(** The stream an outcome leaves, whichever way the computation ended. *)
Definition stream_of {A : Type} (o : outcome A) : FILE :=
  match o with
  | Ret _ f => f
  | Exit _ _ f => f
  end.

(** The value returned to the caller, if the computation returned. *)
Definition returned {A : Type} (o : outcome A) : option A :=
  match o with
  | Ret a _ => Some a
  | Exit _ _ _ => None
  end.

(** The block reads of a trace, as (offset, length) pairs, in order. *)
Definition block_reads (t : list io_event) : list (Z * Z) :=
  flat_map (fun e => match e with
                     | Read off len => [(off, len)]
                     | Getc _ => []
                     end) t.

(** ** The sniffer, the schedule of the locator, the matcher, the fields *)

(** The eight bytes the sniffer looks at. *)
Definition signature_of (f : FILE) : list byte :=
  firstn 8 (skipn 4 (contents f)).

Definition LLONG_MAX : Z := 2 ^ 63 - 1.

(** Where round [xx] of the loop puts the cursor before its read: even
    rounds count whole blocks from the start of the file, odd rounds count
    them back from its end. *)
Definition block_start (fsize xx : Z) : Z :=
  if Z.even xx then (xx / 2) * BLOCK_SIZE
  else fsize - ((xx - 1) / 2 + 1) * BLOCK_SIZE.

(** The number of bytes a round reads: a whole block, or the whole of a
    file shorter than one. *)
Definition block_len (fsize : Z) : Z := Z.min BLOCK_SIZE fsize.

(** The rounds [xx], [xx + 1], ..., [k] of them. *)
Fixpoint rounds_from (xx : Z) (k : nat) : list Z :=
  match k with
  | O => []
  | S k' => xx :: rounds_from (xx + 1) k'
  end.

(** The block read a round makes, as it shows in the trace. *)
Definition block_of (fsize xx : Z) : Z * Z :=
  (block_start fsize xx, block_len fsize).

(** The reading of the schedule that takes the odd rounds for blocks of
    the partition of the file counted from its start: round [xx] on the
    block of index [n_blocks - 1 - (xx - 1) / 2]. *)
Definition partition_block_start (fsize xx : Z) : Z :=
  if Z.even xx then (xx / 2) * BLOCK_SIZE
  else (n_blocks_of fsize - 1 - (xx - 1) / 2) * BLOCK_SIZE.

(** The bytes that can carry a streak: the first three of the tag. *)
Definition streak_byte (b : byte) : Prop := b = x6d \/ b = x76 \/ b = x68.

(** The tag stands at offset [o]. *)
Definition tag_at (bytes : list byte) (o : nat) : Prop :=
  firstn 4 (skipn o bytes) = hdr.

(** The byte before offset [o], if there is one, carries no streak. *)
Definition clean_before (bytes : list byte) (o : nat) : Prop :=
  forall pre b, firstn o bytes = pre ++ [b] -> ~ streak_byte b.

(** The unsigned big-endian value of a byte string, as the format defines
    the timescale and the duration. *)
Definition be_uint (bs : list byte) : Z :=
  fold_left (fun acc b => acc * 256 + u8 b) bs 0.

(** The quotient of two integers below [2 ^ 53], both exact as [double],
    divided in binary64: the nearest [double] to D / T. *)
Definition nearest_double_quotient (D T : Z) : spec_float :=
  Float.double_div (Float.double_of_ullong D) (Float.double_of_ullong T).

(** The two stages [get_mp4_len] runs once the header is found, one after
    the other: the version byte with its skip, then the two fields. *)
Definition decode_fields : M (Z * Z) :=
  version <- read_version_and_skip ;;
  read_fields version.

(** The bytes the version selects: how many are skipped after it, and how
    many hold the duration. *)
Definition skip_of (version : Z) : Z := if version =? 1 then 19 else 11.
Definition width_of (version : Z) : Z := if version =? 1 then 8 else 4.

(** The two fields as the decoder makes them from the bytes [r] that start
    at the timescale: [unit_per_sec] from the first four, [len_unit] from
    the next eight for version 1, from the next four behind four zero bytes
    otherwise. *)
Definition fields_of (version : Z) (r : list byte) : Z * Z :=
  (unit_per_sec_of (firstn 4 r),
   len_unit_of (if version =? 1 then firstn 8 (skipn 4 r)
                else [x00; x00; x00; x00] ++ firstn 4 (skipn 4 r))).


(** ** Sample files *)

Definition bytes_of (s : string) : list byte := list_byte_of_string s.

(** [n] zero bytes. *)
Definition zeros (n : Z) : list byte := repeat x00 (Z.to_nat n).

(** A minimal file: 4 size bytes, the signature, padding up to offset 40,
    the tag [mvhd], then the header fields given. *)
Definition sample_file (signature : string) (before_tag : list byte)
    (header : list byte) : list byte :=
  [x00; x00; x00; x20] ++ bytes_of signature
  ++ repeat x00 (28 - length before_tag) ++ before_tag
  ++ bytes_of "mvhd" ++ header.

Definition v0_header (timescale duration : list byte) : list byte :=
  [x00] ++ [x00; x00; x00] ++ repeat x00 8 ++ timescale ++ duration
  ++ repeat x00 16.

Definition v1_header (timescale duration : list byte) : list byte :=
  [x01] ++ [x00; x00; x00] ++ repeat x00 16 ++ timescale ++ duration
  ++ repeat x00 16.

(** A file in which the byte before the tag is an [m]: the streak is 1
    when the tag's own [m] arrives, that [m] is not [hdr[1]], the streak
    falls to 0 and the [m] is not looked at again. *)
Definition file_with_m_before_tag : list byte :=
  sample_file "ftypisom" [x6d]
    (v0_header [x00; x00; x03; xe8] [x00; x00; x13; x88]).

(** A version-1 file whose duration is 2^31 units, at 1000 units a second. *)
Definition v1_file_duration_2_pow_31 : list byte :=
  sample_file "ftypisom" []
    (v1_header [x00; x00; x03; xe8]
               [x00; x00; x00; x00; x80; x00; x00; x00]).

(** A version-0 file of 2^31 units at 1000 units a second (about 24
    days). *)
Definition v0_file_duration_2_pow_31 : list byte :=
  sample_file "ftypisom" []
    (v0_header [x00; x00; x03; xe8] [x80; x00; x00; x00]).

(** A version-0 file of [0x7f000000] units at a timescale of 2^24 + 1. *)
Definition v0_file_timescale_2_pow_24_plus_1 : list byte :=
  sample_file "ftypisom" []
    (v0_header [x01; x00; x00; x01] [x7f; x00; x00; x00]).

(** A version-0 file of 5000 units at a timescale of 0. *)
Definition v0_file_timescale_0 : list byte :=
  sample_file "ftypisom" []
    (v0_header [x00; x00; x00; x00] [x00; x00; x13; x88]).

(** * Part III: properties *)

Ltac euclid := Z.to_euclidean_division_equations; lia.

(** ** Machine integers *)

Lemma u8_range (b : byte) : 0 <= u8 b <= 255.
Proof.
  unfold u8. pose proof (Byte.to_N_bounded b). lia.
Qed.

Lemma u8_inj (a b : byte) : u8 a = u8 b -> a = b.
Proof.
  unfold u8. intros H. apply N2Z.inj in H.
  pose proof (Byte.of_to_N a) as Ha. rewrite H, Byte.of_to_N in Ha.
  congruence.
Qed.

Lemma to_int_small (z : Z) : - 2 ^ 31 <= z < 2 ^ 31 -> to_int z = z.
Proof.
  intros H. unfold to_int. rewrite Z.mod_small; lia.
Qed.

Lemma to_long_small (z : Z) : - 2 ^ 63 <= z < 2 ^ 63 -> to_long z = z.
Proof.
  intros H. unfold to_long. rewrite Z.mod_small; lia.
Qed.

Lemma to_ulong_small (z : Z) : 0 <= z < 2 ^ 64 -> to_ulong z = z.
Proof.
  intros H. unfold to_ulong. apply Z.mod_small; lia.
Qed.

(** A negated [unsigned long] product, handed to a [long] parameter, is
    the negative number again. *)
Lemma to_long_to_ulong_neg (z : Z) :
  - 2 ^ 63 <= z < 2 ^ 63 -> to_long (to_ulong z) = z.
Proof.
  intros H. unfold to_long, to_ulong.
  rewrite Zplus_mod_idemp_l. rewrite Z.mod_small; lia.
Qed.

Lemma to_ulong_mul_l (a b : Z) : to_ulong (to_ulong a * b) = to_ulong (a * b).
Proof.
  unfold to_ulong. apply Zmult_mod_idemp_l.
Qed.

Lemma to_ulong_add_l (a b : Z) : to_ulong (to_ulong a + b) = to_ulong (a + b).
Proof.
  unfold to_ulong. apply Zplus_mod_idemp_l.
Qed.

Ltac bytes_in_range :=
  repeat match goal with
         | |- context [u8 ?b] =>
             lazymatch goal with
             | _ : 0 <= u8 b <= 255 |- _ => fail
             | _ => pose proof (u8_range b)
             end
         end.

(** ** Properties of the stdio model *)

Lemma length_unread (f : FILE) :
  0 <= position f ->
  Z.of_nat (length (unread f)) = Z.max 0 (file_size f - position f).
Proof.
  intros Hp. unfold unread, file_size. rewrite length_skipn. lia.
Qed.

(** On a stream with something to read, a regular file, [SEEK_END] counts
    from the size. *)
Lemma end_offset_of_size (f : FILE) :
  0 < file_size f -> end_offset_of f = file_size f.
Proof.
  unfold file_size, end_offset_of, contents.
  destruct (source f) as [c | e]; cbn [length]; [reflexivity | lia].
Qed.

Lemma end_offset_of_bytes (c : list byte) (p : Z) (t : list io_event) :
  end_offset_of (mkFILE c p t) = Z.of_nat (length c).
Proof. reflexivity. Qed.

Lemma contents_mkStream (f : FILE) (p : Z) (t : list io_event) :
  contents (mkStream (source f) p t) = contents f.
Proof. reflexivity. Qed.

Lemma contents_bytes (c : list byte) (p : Z) (t : list io_event) :
  contents (mkFILE c p t) = c.
Proof. reflexivity. Qed.

Ltac same_contents := rewrite ?contents_mkStream, ?contents_bytes.

Lemma fseek_ok (offset : Z) (w : whence) (f : FILE) (target : Z) :
  target = match w with
           | SEEK_SET => 0
           | SEEK_CUR => position f
           | SEEK_END => end_offset_of f
           end + offset ->
  0 <= target ->
  fseek offset w f = Ret 0 (mkStream (source f) target (trace f)).
Proof.
  intros -> Hpos. unfold fseek.
  destruct (Z.ltb_spec (match w with
                        | SEEK_SET => 0
                        | SEEK_CUR => position f
                        | SEEK_END => end_offset_of f
                        end + offset) 0); [lia | reflexivity].
Qed.

Lemma fread_eq (n : Z) (f : FILE) :
  fread n f
  = Ret (firstn (Z.to_nat n) (unread f))
        (mkStream (source f)
           (position f + Z.of_nat (length (firstn (Z.to_nat n) (unread f))))
           (trace f ++ [Read (position f)
                          (Z.of_nat (length (firstn (Z.to_nat n) (unread f))))])).
Proof.
  reflexivity.
Qed.

Lemma returned_stream {A : Type} (o : outcome A) (a : A) :
  returned o = Some a -> o = Ret a (stream_of o).
Proof.
  destruct o; cbn; intros H; [injection H as -> | discriminate].
  reflexivity.
Qed.

Lemma length_fread (n : Z) (f : FILE) :
  0 <= n -> 0 <= position f ->
  Z.of_nat (length (firstn (Z.to_nat n) (unread f)))
  = Z.min n (Z.max 0 (file_size f - position f)).
Proof.
  intros Hn Hp. rewrite length_firstn, Nat2Z.inj_min, length_unread by lia.
  lia.
Qed.

(** ** The magic number *)

Lemma union_ull_inj (c c' : list byte) :
  length c = length c' -> union_ull c = union_ull c' -> c = c'.
Proof.
  revert c'. induction c as [|a c IH]; intros [|b c'] Hlen Heq;
    cbn [length union_ull] in *; try discriminate; [reflexivity|].
  pose proof (u8_range a). pose proof (u8_range b).
  assert (Hab : u8 a = u8 b) by lia.
  assert (Hcc : union_ull c = union_ull c') by lia.
  f_equal; [now apply u8_inj | apply IH; congruence].
Qed.

Lemma has_mp4_magic_unfold (f : FILE) :
  12 <= file_size f ->
  length (signature_of f) = 8%nat /\
  has_mp4_magic f =
    Ret (if (union_ull (signature_of f) =? 0x6D6F736970797466)
            || (union_ull (signature_of f) =? 0x3234706D70797466)
         then 1 else 0)
        (mkStream (source f) 12 (trace f ++ [Read 4 8])).
Proof.
  intros Hsz. unfold file_size in Hsz.
  assert (Hlen : length (signature_of f) = 8%nat).
  { unfold signature_of. rewrite length_firstn, length_skipn. lia. }
  split; [exact Hlen|].
  unfold has_mp4_magic, bind.
  rewrite (fseek_ok 4 SEEK_SET f 4) by lia.
  change (negb (0 =? 0)) with false. cbv beta iota.
  unfold fread, unread. cbn [position trace]; same_contents.
  change (Z.to_nat 4) with 4%nat. change (Z.to_nat 8) with 8%nat.
  fold (signature_of f). rewrite Hlen.
  change (negb (Z.of_nat 8 =? 8)) with false. cbv beta iota.
  change (4 + Z.of_nat 8) with 12. change (Z.of_nat 8) with 8.
  destruct ((union_ull (signature_of f) =? 0x6D6F736970797466)
            || (union_ull (signature_of f) =? 0x3234706D70797466));
    reflexivity.
Qed.

(** C4. [has_mp4_magic] returns 1 exactly when the bytes at offsets 4 to 11
    are, in file order, "ftypisom" or "ftypmp42", and returns 0 for every
    other content of those eight bytes. *)
Theorem has_mp4_magic_iff_signature (f : FILE) :
  12 <= file_size f ->
  let accepted := signature_of f = bytes_of "ftypisom"
                  \/ signature_of f = bytes_of "ftypmp42" in
  ((exists f', has_mp4_magic f = Ret 1 f') <-> accepted) /\
  ((exists f', has_mp4_magic f = Ret 0 f') <-> ~ accepted).
Proof.
  intros Hsz accepted. subst accepted.
  destruct (has_mp4_magic_unfold f Hsz) as [Hlen Hrun].
  assert (Hiso : union_ull (signature_of f) = 0x6D6F736970797466
                 <-> signature_of f = bytes_of "ftypisom").
  { split; intros H.
    - apply union_ull_inj; [rewrite Hlen; reflexivity | rewrite H; reflexivity].
    - rewrite H. reflexivity. }
  assert (Hmp42 : union_ull (signature_of f) = 0x3234706D70797466
                  <-> signature_of f = bytes_of "ftypmp42").
  { split; intros H.
    - apply union_ull_inj; [rewrite Hlen; reflexivity | rewrite H; reflexivity].
    - rewrite H. reflexivity. }
  rewrite Hrun.
  destruct (Z.eqb_spec (union_ull (signature_of f)) 0x6D6F736970797466) as [E1|E1];
    destruct (Z.eqb_spec (union_ull (signature_of f)) 0x3234706D70797466) as [E2|E2];
    cbn [orb]; rewrite Hiso in E1; rewrite Hmp42 in E2.
  all: split; split; intros H.
  all: try (destruct H as [f' H]; discriminate H).
  all: try (eexists; reflexivity).
  all: tauto.
Qed.

Lemma has_mp4_magic_iff_signature_witness :
  let f := fopen (sample_file "ftypmp42" [] (v0_header [x00; x00; x03; xe8]
                                                       [x00; x00; x13; x88])) in
  12 <= file_size f /\
  (exists f', has_mp4_magic f = Ret 1 f') /\
  ~ (exists f', has_mp4_magic f = Ret 0 f').
Proof.
  intros f.
  assert (Hsz : 12 <= file_size f) by (vm_compute; discriminate).
  destruct (has_mp4_magic_iff_signature f Hsz) as [[_ Hone] [Hzero _]].
  split; [exact Hsz|]. split.
  - apply Hone. right. reflexivity.
  - intros H0. apply (Hzero H0). right. reflexivity.
Defined.




(** ** The size check *)

(** C8. A file shorter than [MIN_SIZE] ends the run with status 3 and one
    message on standard error; nothing is printed and no byte of the file is
    transferred, so neither the signature check, nor the scan, nor the
    decoding takes place. *)
Theorem main_too_small (argc : Z) (bytes : list byte) :
  2 <= argc ->
  Z.of_nat (length bytes) < MIN_SIZE ->
  main argc (Some bytes) = mkRun 3 None ["file size too small"%string] [].
Proof.
  intros Hargc Hsz. unfold main, main_opened. cbn [option_map].
  destruct (Z.ltb_spec argc 2); [lia|].
  unfold bind, ftell, ret, fopen.
  rewrite (fseek_ok 0 SEEK_END _ (Z.of_nat (length bytes)))
    by (cbn [end_offset_of source]; lia).
  cbn [position trace].
  destruct (Z.ltb_spec (Z.of_nat (length bytes)) MIN_SIZE); [reflexivity|lia].
Qed.

Lemma main_too_small_witness :
  let bytes := bytes_of "....ftypisom....mvhd" in
  2 <= 2 /\ Z.of_nat (length bytes) < MIN_SIZE /\
  main 2 (Some bytes) = mkRun 3 None ["file size too small"%string] [].
Proof.
  intros bytes.
  assert (Hargc : 2 <= 2) by lia.
  assert (Hsz : Z.of_nat (length bytes) < MIN_SIZE) by (vm_compute; reflexivity).
  split; [exact Hargc|]. split; [exact Hsz|].
  exact (main_too_small 2 bytes Hargc Hsz).
Defined.

(** ** The version byte and the skip *)

Lemma read_fields_first_transfer (version : Z) (g : FILE) :
  exists n rest,
    trace (stream_of (read_fields version g))
    = trace g ++ Read (position g) n :: rest.
Proof.
  unfold read_fields, bind. unfold fread at 1.
  set (got := firstn (Z.to_nat 4) (unread g)).
  set (g1 := mkStream _ _ _).
  destruct (negb (Z.of_nat (length got) =? 4)).
  - exists (Z.of_nat (length got)), []. reflexivity.
  - destruct (version =? 1); unfold fread at 1; cbn [trace position]; same_contents.
    + match goal with
      | |- context [negb ?c] => destruct (negb c)
      end; cbn [stream_of trace ret exit]; subst g1; cbn [trace];
        rewrite <- app_assoc; eexists; eexists; reflexivity.
    + match goal with
      | |- context [negb ?c] => destruct (negb c)
      end; cbn [stream_of trace ret exit]; subst g1; cbn [trace];
        rewrite <- app_assoc; eexists; eexists; reflexivity.
Qed.

(** The cursor moved forward over bytes of the file. *)
Lemma unread_shift (f : FILE) (n : Z) (t : list io_event) :
  0 <= position f -> 0 <= n ->
  unread (mkStream (source f) (position f + n) t)
  = skipn (Z.to_nat n) (unread f).
Proof.
  unfold unread. cbn [position]; same_contents. intros Hp Hn.
  replace (Z.to_nat (position f + n))
    with (Z.to_nat n + Z.to_nat (position f))%nat by lia.
  now rewrite skipn_skipn.
Qed.

(** The two reads of [read_fields] when the file holds both fields: four
    bytes for the timescale, then [width_of version] bytes for the
    duration. *)
Lemma read_fields_whole (version : Z) (g : FILE) :
  0 <= position g ->
  position g + 4 + width_of version <= file_size g ->
  read_fields version g
  = Ret (fields_of version (unread g))
        (mkStream (source g) (position g + 4 + width_of version)
           (trace g ++ [Read (position g) 4;
                        Read (position g + 4) (width_of version)])).
Proof.
  intros Hp Hsz.
  assert (Hw : width_of version = 4 \/ width_of version = 8)
    by (unfold width_of; destruct (version =? 1); auto).
  unfold read_fields, bind. rewrite fread_eq.
  pose proof (length_fread 4 g ltac:(lia) Hp) as Hl4.
  rewrite Z.min_l in Hl4 by lia. rewrite Hl4.
  change (negb (4 =? 4)) with false. cbv beta iota.
  cbn [position trace].
  assert (Hrest : forall t, unread (mkStream (source g) (position g + 4) t)
                            = skipn 4 (unread g)).
  { intros t. apply (unread_shift g 4 t Hp). lia. }
  assert (Hleft : Z.of_nat (length (skipn 4 (unread g)))
                  = file_size g - position g - 4).
  { rewrite length_skipn, Nat2Z.inj_sub, length_unread by
      (try apply Nat2Z.inj_le; rewrite ?length_unread by exact Hp; lia).
    change (Z.of_nat 4) with 4. lia. }
  unfold fields_of, width_of in *.
  destruct (version =? 1); rewrite fread_eq, Hrest; cbn [position trace].
  - assert (Hl8 : Z.of_nat (length (firstn (Z.to_nat 8) (skipn 4 (unread g))))
                  = 8).
    { rewrite length_firstn, Nat2Z.inj_min, Hleft. lia. }
    rewrite Hl8. change (negb (8 =? 8)) with false. cbv beta iota.
    unfold ret. rewrite <- app_assoc.
    replace (position g + 4 + 8) with (position g + 4 + 8) by lia.
    reflexivity.
  - assert (Hl8 : Z.of_nat (length (firstn (Z.to_nat 4) (skipn 4 (unread g))))
                  = 4).
    { rewrite length_firstn, Nat2Z.inj_min, Hleft. lia. }
    rewrite Hl8. change (negb (4 =? 4)) with false. cbv beta iota.
    unfold ret. rewrite <- app_assoc. reflexivity.
Qed.

(** C7. After the version byte the decoder moves the cursor forward by 19
    bytes when the byte is 1 and by 11 bytes for every other value, 0
    included, and the timescale is the next thing read, at that offset; the
    field widths chosen for a version other than 1 are those of version 0.
    When the file holds the fields, the two reads that follow are of 4
    bytes for the timescale and of 8 bytes (version 1) or 4 bytes (every
    other version) for the duration, and the fields are decoded from those
    bytes. *)
Theorem version_selects_skip (f : FILE) (b : byte) (rest : list byte) :
  0 <= position f ->
  unread f = b :: rest ->
  exists f',
    read_version_and_skip f = Ret (u8 b) f' /\
    contents f' = contents f /\
    (u8 b = 1 -> position f' = position f + 1 + 19) /\
    (u8 b <> 1 -> position f' = position f + 1 + 11) /\
    (u8 b <> 1 -> forall g, read_fields (u8 b) g = read_fields 0 g) /\
    (exists n more,
       trace (stream_of (read_fields (u8 b) f'))
       = trace f ++ Getc (position f) :: Read (position f') n :: more) /\
    let width := if u8 b =? 1 then 8 else 4 in
    (position f' + 4 + width <= file_size f ->
     read_fields (u8 b) f'
     = Ret (unit_per_sec_of (firstn 4 (unread f')),
            len_unit_of
              (if u8 b =? 1 then firstn 8 (skipn 4 (unread f'))
               else [x00; x00; x00; x00] ++ firstn 4 (skipn 4 (unread f'))))
           (mkStream (source f) (position f' + 4 + width)
              (trace f ++ [Getc (position f);
                           Read (position f') 4;
                           Read (position f' + 4) width]))).
Proof.
  intros Hpos Hunread.
  unfold read_version_and_skip, bind, fgetc. rewrite Hunread.
  set (f1 := mkStream (source f) (position f + 1) (trace f ++ [Getc (position f)])).
  assert (Hwidth : u8 b <> 1 -> forall g, read_fields (u8 b) g = read_fields 0 g).
  { intros Hne g. unfold read_fields.
    destruct (Z.eqb_spec (u8 b) 1); [contradiction | reflexivity]. }
  assert (Hskip : fseek (skip_of (u8 b)) SEEK_CUR f1
                  = Ret 0 (mkStream (source f)
                             (position f + 1 + skip_of (u8 b)) (trace f1))).
  { apply (fseek_ok _ SEEK_CUR f1).
    - reflexivity.
    - cbn [position f1]. unfold skip_of. destruct (u8 b =? 1); lia. }
  remember (mkStream (source f) (position f + 1 + skip_of (u8 b)) (trace f1))
    as f' eqn:Hf'.
  assert (Hp' : position f' = position f + 1 + skip_of (u8 b))
    by (now rewrite Hf').
  assert (Ht' : trace f' = trace f ++ [Getc (position f)]) by (now rewrite Hf').
  assert (Hs' : source f' = source f) by (now rewrite Hf').
  assert (Hc' : contents f' = contents f) by (now rewrite Hf').
  assert (Hz' : file_size f' = file_size f) by (now rewrite Hf').
  assert (Hrun : (if u8 b =? 1
                  then r <- fseek 19 SEEK_CUR ;;
                       (if negb (r =? 0) then exit 31 "Problem accessing file"
                        else ret (u8 b))
                  else r <- fseek 11 SEEK_CUR ;;
                       (if negb (r =? 0) then exit 32 "Problem accessing file"
                        else ret (u8 b))) f1
                 = Ret (u8 b) f').
  { unfold skip_of in Hskip. unfold bind.
    destruct (u8 b =? 1); rewrite Hskip; reflexivity. }
  exists f'. split; [exact Hrun|]. split; [exact Hc'|].
  unfold skip_of in Hp'.
  split; [intros E; rewrite Hp'; apply Z.eqb_eq in E; rewrite E; reflexivity|].
  split; [intros E; rewrite Hp'; apply Z.eqb_neq in E; rewrite E; reflexivity|].
  split; [exact Hwidth|]. split.
  - destruct (read_fields_first_transfer (u8 b) f') as (n & more & Htr).
    exists n, more. rewrite Htr, Ht', <- app_assoc. reflexivity.
  - cbv zeta. intros Hsz.
    rewrite (read_fields_whole (u8 b) f');
      [| rewrite Hp'; destruct (u8 b =? 1); lia
       | rewrite Hz'; exact Hsz].
    rewrite Hs', Ht', <- app_assoc. reflexivity.
Qed.

Lemma version_selects_skip_witness :
  let bytes := sample_file "ftypisom" []
                 (v1_header [x00; x00; x03; xe8]
                            [x00; x00; x00; x01; x00; x00; x00; x00]) in
  let f := mkFILE bytes 44 [] in
  0 <= position f /\
  unread f = x01 :: skipn 45 bytes /\
  exists f',
    read_version_and_skip f = Ret 1 f' /\ position f' = 64 /\
    read_fields 1 f'
    = Ret (1000, 2 ^ 32)
          (mkFILE bytes 76 [Getc 44; Read 64 4; Read 68 8]).
Proof.
  intros bytes f.
  assert (Hpos : 0 <= position f) by (vm_compute; discriminate).
  assert (Hunread : unread f = x01 :: skipn 45 bytes) by reflexivity.
  split; [exact Hpos|]. split; [exact Hunread|].
  destruct (version_selects_skip f x01 (skipn 45 bytes) Hpos Hunread)
    as (f' & Hrun & _ & Hv1 & _ & _ & _ & Hread).
  exists f'. split; [exact Hrun|].
  assert (Hp : position f' = 64) by (rewrite Hv1; reflexivity).
  split; [exact Hp|].
  assert (Hf' : f' = mkFILE bytes 64 [Getc 44]).
  { assert (E : read_version_and_skip f = Ret 1 (mkFILE bytes 64 [Getc 44]))
      by (vm_compute; reflexivity).
    rewrite E in Hrun. injection Hrun as <-. reflexivity. }
  change (u8 x01) with 1 in Hread. cbv zeta in Hread. rewrite Hp in Hread.
  rewrite Hread by (vm_compute; discriminate).
  rewrite Hf'. vm_compute. reflexivity.
Defined.

(** ** The block schedule of the locator *)

Lemma n_blocks_of_bounds (fsize : Z) :
  0 <= fsize ->
  0 <= n_blocks_of fsize /\
  (n_blocks_of fsize - 1) * BLOCK_SIZE < fsize + Z.b2z (fsize =? 0)
  /\ fsize <= n_blocks_of fsize * BLOCK_SIZE.
Proof.
  intros Hf. unfold n_blocks_of, BLOCK_SIZE.
  destruct (Z.eqb_spec fsize 0) as [->|Hne]; [cbn; lia|]. cbn [Z.b2z].
  destruct (Z.gtb_spec (Z.rem fsize 16384) 0); euclid.
Qed.

Lemma even_seek_offset_eq (xx : Z) :
  0 <= xx -> (xx / 2) * BLOCK_SIZE <= LLONG_MAX ->
  even_seek_offset xx = (xx / 2) * BLOCK_SIZE.
Proof.
  unfold even_seek_offset, LLONG_MAX, BLOCK_SIZE. intros Hx Hb.
  rewrite Z.quot_div_nonneg by lia.
  apply to_long_to_ulong_neg. assert (0 <= xx / 2) by euclid. lia.
Qed.

Lemma odd_seek_offset_eq (n_blocks xx : Z) :
  1 <= xx < n_blocks -> n_blocks < 2 ^ 64 ->
  ((xx - 1) / 2 + 1) * BLOCK_SIZE <= 2 ^ 63 ->
  odd_seek_offset n_blocks xx = - (((xx - 1) / 2 + 1) * BLOCK_SIZE).
Proof.
  unfold odd_seek_offset, BLOCK_SIZE. intros Hx Hn Hb.
  assert (Hk : 0 <= (xx - 1) / 2 < n_blocks) by euclid.
  rewrite (to_ulong_small (xx - 1)) by lia.
  rewrite Z.quot_div_nonneg by lia.
  rewrite (to_ulong_small (n_blocks - 1 - (xx - 1) / 2)) by lia.
  rewrite to_ulong_mul_l.
  rewrite to_long_to_ulong_neg by lia. lia.
Qed.

(** Every round of the loop starts inside the file and finds a whole block
    there, unless the file is shorter than a block. *)
Lemma block_start_in_file (fsize xx : Z) :
  0 <= fsize -> 0 <= xx < n_blocks_of fsize ->
  0 <= block_start fsize xx /\
  block_start fsize xx + block_len fsize <= fsize.
Proof.
  intros Hf Hx. pose proof (n_blocks_of_bounds fsize Hf) as (Hn & Hlo & Hhi).
  unfold block_start, block_len, BLOCK_SIZE in *.
  assert (fsize <> 0) by (intros ->; cbn in Hx; lia).
  destruct (Z.eqb_spec fsize 0); [contradiction|]. cbn [Z.b2z] in Hlo.
  destruct (Z.even xx) eqn:Hev.
  - apply Z.even_spec in Hev. destruct Hev as [h ->].
    replace (2 * h / 2) with h by euclid. lia.
  - rewrite <- Z.negb_odd in Hev. apply negb_false_iff, Z.odd_spec in Hev.
    destruct Hev as [h ->].
    replace ((2 * h + 1 - 1) / 2) with h by euclid. lia.
Qed.

(** ** The matcher *)

Lemma search_block_spec (buf : list byte) :
  forall (jj chars_matching : Z) (seen : list byte),
    0 <= chars_matching <= 3 ->
    (exists l, seen = l ++ firstn (Z.to_nat chars_matching) hdr) ->
    match search_block buf jj chars_matching with
    | inl j =>
        jj <= j < jj + Z.of_nat (length buf) /\
        exists l, seen ++ firstn (Z.to_nat (j - jj + 1)) buf = l ++ hdr
    | inr streak =>
        0 <= streak <= 3 /\
        exists l, seen ++ buf = l ++ firstn (Z.to_nat streak) hdr
    end.
Proof.
  induction buf as [|b buf IH]; intros jj cm seen Hcm [l Hseen].
  - cbn [search_block]. split; [lia|]. exists l. now rewrite app_nil_r.
  - cbn [search_block].
    destruct (Byte.eqb b (hdr_at cm)) eqn:Hb.
    + apply Byte.byte_dec_bl in Hb.
      destruct (Z.eqb_spec (cm + 1) 4) as [H4|H4].
      * split; [cbn [length]; lia|].
        exists l. replace (jj - jj + 1) with 1 by lia.
        assert (cm = 3) by lia. subst cm seen b.
        cbn. rewrite <- app_assoc. reflexivity.
      * specialize (IH (jj + 1) (cm + 1) (seen ++ [b])).
        destruct (search_block buf (jj + 1) (cm + 1)) as [j|streak].
        -- destruct IH as [Hj [l' Hl']]; [lia | |].
           { exists l. subst seen b. rewrite <- app_assoc. f_equal.
             assert (Hc : cm = 0 \/ cm = 1 \/ cm = 2) by lia.
             destruct Hc as [->|[->| ->]]; reflexivity. }
           split; [cbn [length]; lia|]. exists l'. rewrite <- Hl'.
           rewrite <- app_assoc. f_equal.
           replace (Z.to_nat (j - jj + 1)) with (S (Z.to_nat (j - (jj + 1) + 1))) by lia.
           reflexivity.
        -- destruct IH as [Hs [l' Hl']]; [lia | |].
           { exists l. subst seen b. rewrite <- app_assoc. f_equal.
             assert (Hc : cm = 0 \/ cm = 1 \/ cm = 2) by lia.
             destruct Hc as [->|[->| ->]]; reflexivity. }
           split; [lia|]. exists l'. rewrite <- Hl', <- app_assoc. reflexivity.
    + specialize (IH (jj + 1) 0 (seen ++ [b])).
      destruct (search_block buf (jj + 1) 0) as [j|streak].
      * destruct IH as [Hj [l' Hl']]; [lia | |].
        { exists (seen ++ [b]). now rewrite app_nil_r. }
        split; [cbn [length]; lia|]. exists l'. rewrite <- Hl'.
        rewrite <- app_assoc. f_equal.
        replace (Z.to_nat (j - jj + 1)) with (S (Z.to_nat (j - (jj + 1) + 1))) by lia.
        reflexivity.
      * destruct IH as [Hs [l' Hl']]; [lia | |].
        { exists (seen ++ [b]). now rewrite app_nil_r. }
        split; [lia|]. exists l'. rewrite <- Hl', <- app_assoc. reflexivity.
Qed.

Lemma unread_advance (f : FILE) (b : byte) (rest : list byte)
    (t : list io_event) :
  0 <= position f ->
  unread f = b :: rest ->
  unread (mkStream (source f) (position f + 1) t) = rest.
Proof.
  unfold unread. cbn [position]; same_contents. intros Hp Hu.
  replace (Z.to_nat (position f + 1)) with (1 + Z.to_nat (position f))%nat by lia.
  rewrite <- skipn_skipn, Hu. reflexivity.
Qed.

Lemma firstn_plus {A : Type} (a b : nat) (l : list A) :
  firstn (a + b) l = firstn a l ++ firstn b (skipn a l).
Proof.
  revert l. induction a as [|a IH]; intros l; [reflexivity|].
  destruct l as [|x l]; cbn [Nat.add firstn skipn app].
  - now rewrite firstn_nil.
  - now rewrite IH.
Qed.

Lemma block_reads_app (t u : list io_event) :
  block_reads (t ++ u) = block_reads t ++ block_reads u.
Proof.
  unfold block_reads. apply flat_map_app.
Qed.

Lemma check_remaining_spec (rounds : nat) :
  forall (chars_matching : Z) (f : FILE),
    0 <= position f ->
    0 <= chars_matching <= 4 ->
    chars_matching = 0 \/ 4 - chars_matching <= Z.of_nat rounds ->
    exists r f',
      check_remaining rounds chars_matching f = Ret r f' /\
      contents f' = contents f /\
      block_reads (trace f') = block_reads (trace f) /\
      (r = 0 \/
       r = 4 /\
       position f' = position f + (4 - chars_matching) /\
       firstn (Z.to_nat (4 - chars_matching)) (unread f)
       = skipn (Z.to_nat chars_matching) hdr).
Proof.
  induction rounds as [|rounds IH]; intros cm f Hp Hcm Hfuel.
  - assert (Hc : cm = 0 \/ cm = 4) by lia.
    destruct Hc as [-> | ->]; cbn; eexists; eexists;
      (split; [reflexivity|]); repeat split; auto.
    right. repeat split; lia.
  - assert (Hc : cm = 0 \/ cm = 4 \/ 1 <= cm <= 3) by lia.
    destruct Hc as [-> | [-> | Hc]].
    + cbn. eexists; eexists; (split; [reflexivity|]); repeat split; auto.
    + cbn. eexists; eexists; (split; [reflexivity|]); repeat split; auto.
      right. repeat split; lia.
    + cbn [check_remaining].
      replace (negb (cm =? 0) && negb (cm =? 4)) with true
        by (destruct (Z.eqb_spec cm 0); destruct (Z.eqb_spec cm 4);
            try lia; reflexivity).
      unfold bind, fgetc.
      destruct (unread f) as [|b rest] eqn:Hu.
      * replace (EOF =? u8 (hdr_at cm)) with false
          by (symmetry; apply Z.eqb_neq; pose proof (u8_range (hdr_at cm));
              unfold EOF; lia).
        eexists; eexists; (split; [reflexivity|]); repeat split; auto.
      * destruct (Z.eqb_spec (u8 b) (u8 (hdr_at cm))) as [Hb|Hb].
        -- apply u8_inj in Hb.
           set (f1 := mkStream (source f) (position f + 1)
                             (trace f ++ [Getc (position f)])).
           destruct (IH (cm + 1) f1) as (r & f' & Hrun & Hc' & Ht & Hr).
           { cbn [position f1]. lia. }
           { lia. }
           { right. lia. }
           exists r, f'. split; [exact Hrun|]. split; [exact Hc'|].
           split.
           { rewrite Ht. unfold f1. cbn [trace]. rewrite block_reads_app.
             cbn. now rewrite app_nil_r. }
           destruct Hr as [Hr | (Hr & Hpos & Hbytes)]; [now left|].
           right. split; [exact Hr|]. split.
           { rewrite Hpos. cbn [position f1]. lia. }
           unfold f1 in Hbytes.
           rewrite (unread_advance f b rest _ Hp Hu) in Hbytes.
           replace (Z.to_nat (4 - cm)) with (S (Z.to_nat (4 - (cm + 1)))) by lia.
           cbn [firstn]. rewrite Hbytes, Hb.
           assert (Hcases : cm = 1 \/ cm = 2 \/ cm = 3) by lia.
           destruct Hcases as [-> | [-> | ->]]; reflexivity.
        -- eexists; eexists; (split; [reflexivity|]); repeat split; auto.
           cbn [trace]. rewrite block_reads_app. cbn. now rewrite app_nil_r.
Qed.

(** The seek that opens round [xx] succeeds and lands on [block_start]. *)
Lemma seek_to_block (f : FILE) (xx : Z) :
  file_size f <= LLONG_MAX ->
  0 <= xx < n_blocks_of (file_size f) ->
  (if negb (Z.rem xx 2 =? 0) then
     r <- fseek (odd_seek_offset (n_blocks_of (file_size f)) xx) SEEK_END ;;
     if negb (r =? 0) then exit 21 "Problem accessing file" else ret tt
   else
     r <- fseek (even_seek_offset xx) SEEK_SET ;;
     if negb (r =? 0) then exit 22 "Problem accessing file" else ret tt) f
  = Ret tt (mkStream (source f) (block_start (file_size f) xx) (trace f)).
Proof.
  intros Hmax Hx.
  assert (Hf : 0 <= file_size f) by (unfold file_size; lia).
  pose proof (block_start_in_file _ _ Hf Hx) as [Hs0 Hs1].
  pose proof (n_blocks_of_bounds _ Hf) as (Hn & Hlo & Hhi).
  assert (Hb : Z.b2z (file_size f =? 0) <= 1)
    by (destruct (file_size f =? 0); cbn; lia).
  unfold LLONG_MAX in Hmax.
  assert (Hrem : (Z.rem xx 2 =? 0) = Z.even xx).
  { rewrite Z.rem_mod_nonneg by lia. destruct (Z.even xx) eqn:Hev.
    - apply Z.even_spec in Hev. destruct Hev as [h ->].
      apply Z.eqb_eq. euclid.
    - rewrite <- Z.negb_odd in Hev.
      apply negb_false_iff, Z.odd_spec in Hev. destruct Hev as [h ->].
      apply Z.eqb_neq. euclid. }
  rewrite Hrem. unfold block_start in *.
  destruct (Z.even xx) eqn:Hev; cbn [negb]; unfold bind.
  - rewrite (fseek_ok _ SEEK_SET f (xx / 2 * BLOCK_SIZE)).
    + reflexivity.
    + rewrite even_seek_offset_eq; unfold LLONG_MAX, block_len, BLOCK_SIZE in *; lia.
    + lia.
  - assert (Hodd : 1 <= xx).
    { destruct (Z.eq_dec xx 0) as [->|]; [discriminate Hev | lia]. }
    assert (Hk : 0 <= (xx - 1) / 2) by euclid.
    assert (Hend : end_offset_of f = file_size f).
    { apply end_offset_of_size.
      destruct (Z.eq_dec (file_size f) 0) as [E0 | E0]; [|lia].
      rewrite E0 in Hx. change (n_blocks_of 0) with 0 in Hx. lia. }
    rewrite (fseek_ok _ SEEK_END f
               (file_size f - ((xx - 1) / 2 + 1) * BLOCK_SIZE)).
    + reflexivity.
    + rewrite Hend, odd_seek_offset_eq; unfold block_len, BLOCK_SIZE in *; lia.
    + lia.
Qed.

Lemma firstn_own_length {A : Type} (n : nat) (l : list A) :
  firstn (length (firstn n l)) l = firstn n l.
Proof.
  rewrite length_firstn.
  destruct (Nat.min_spec n (length l)) as [[_ ->] | [Hle ->]];
    [reflexivity|].
  rewrite firstn_all. symmetry. now apply firstn_all2.
Qed.

(** The first half of a round: the seek and the read succeed, and leave
    the block in [buf] and the cursor behind it. *)
Lemma scan_block_unfold (f : FILE) (xx : Z) :
  file_size f <= LLONG_MAX ->
  0 <= xx < n_blocks_of (file_size f) ->
  exists buf f2, 
   buf = firstn (Z.to_nat (block_len (file_size f))) (skipn (Z.to_nat (block_start (file_size f) xx)) (contents f)) /\
   Z.of_nat (length buf) = block_len (file_size f) /\
   f2 = mkStream (source f) (block_start (file_size f) xx + block_len (file_size f))
                   (trace f ++ [Read (block_start (file_size f) xx) (block_len (file_size f))]) /\
    scan_block (file_size f) (n_blocks_of (file_size f)) xx f = 
    match search_block buf 0 0 with
    | inl jj =>
        (r <- fseek (- block_len (file_size f) + jj + 1) SEEK_CUR ;;
        if negb (r =? 0) then exit 24 "Problem accessing file"
        else ret (Some 0)) f2
    | inr chars_matching =>
        (chars_matching <-
          (if chars_matching >? 0
           then check_remaining 3 chars_matching
           else ret chars_matching) ;;
        if chars_matching =? 4 then ret (Some 0) else ret None) f2
    end.
Proof.
  intros Hmax Hx.
  assert (Hf : 0 <= file_size f) by (unfold file_size; lia).
  pose proof (block_start_in_file _ _ Hf Hx) as [Hs0 Hs1].
  unfold scan_block. unfold bind at 1.
  rewrite (seek_to_block f xx Hmax Hx).
  remember (block_start (file_size f) xx) as start eqn:Hstart.
  unfold bind at 1. rewrite fread_eq. 
  remember (firstn (Z.to_nat BLOCK_SIZE)
                   (unread (mkStream (source f) start (trace f))))
    as buf eqn:Hbuf0.
  assert (Hlen : Z.of_nat (length buf) = block_len (file_size f)).
  { rewrite Hbuf0, length_fread by (cbn [position]; unfold BLOCK_SIZE; lia).
    unfold block_len in *. cbn [position]. unfold file_size at 1.
    same_contents. fold (file_size f). lia. }
  rewrite Hlen. cbn [position trace]; same_contents.
  replace ((block_len (file_size f) <? BLOCK_SIZE)
           && (block_len (file_size f) <? file_size f)) with false
    by (symmetry; apply andb_false_iff; unfold block_len;
        rewrite !Z.ltb_ge; lia).
  assert (Hbuf : firstn (Z.to_nat (block_len (file_size f)))
                        (skipn (Z.to_nat start) (contents f)) = buf).
  { rewrite <- Hlen, Nat2Z.id, Hbuf0. apply firstn_own_length. }
  exists buf. eexists. split; [now rewrite Hbuf|]. split; [exact Hlen|].
  split; [reflexivity|].
  destruct (search_block buf 0 0); reflexivity.
Qed.

(** One round, run on a stream whose size the caller passed as [fsize]: it
    returns, having read exactly one block at [block_start]; when it reports
    the header, the bytes before the cursor end with the tag. *)
Lemma scan_block_spec (f : FILE) (xx : Z) :
  file_size f <= LLONG_MAX ->
  0 <= xx < n_blocks_of (file_size f) ->
  exists r f',
    scan_block (file_size f) (n_blocks_of (file_size f)) xx f = Ret r f' /\
    contents f' = contents f /\
    block_reads (trace f')
    = block_reads (trace f)
      ++ [(block_start (file_size f) xx, block_len (file_size f))] /\
    (r = None \/
     r = Some 0 /\ 0 <= position f' /\
     exists l, firstn (Z.to_nat (position f')) (contents f) = l ++ hdr).
Proof.
  intros Hmax Hx.
  assert (Hf : 0 <= file_size f) by (unfold file_size; lia).
  pose proof (block_start_in_file _ _ Hf Hx) as [Hs0 Hs1].
  destruct (scan_block_unfold f xx Hmax Hx) as (buf & f2 & Hbuf & Hlen & Hf2 & ->).
  remember (block_start (file_size f) xx) as start eqn:Hstart.
  symmetry in Hbuf.
  assert (Hc2 : contents f2 = contents f) by (now rewrite Hf2).
  assert (Hp2 : position f2 = start + block_len (file_size f))
    by (now rewrite Hf2).
  assert (Ht2 : block_reads (trace f2)
                = block_reads (trace f) ++ [(start, block_len (file_size f))]).
  { rewrite Hf2. cbn [trace]. rewrite block_reads_app. reflexivity. }
  clear Hf2.
  pose proof (search_block_spec buf 0 0 []) as Hsearch.
  destruct (search_block buf 0 0) as [jj | chars_matching].
  - (* the streak reached 4 inside the block *)
    destruct Hsearch as [Hjj [l Hl]]; [lia | exists []; reflexivity |].
    rewrite Hlen in Hjj. cbn [app] in Hl.
    unfold bind.
    rewrite (fseek_ok _ SEEK_CUR f2 (start + jj + 1)) by lia.
    change (negb (0 =? 0)) with false. cbv beta iota. unfold ret.
    eexists; eexists; split; [reflexivity|].
    cbn [position trace]; same_contents. split; [exact Hc2|].
    split; [exact Ht2|]. right. split; [reflexivity|]. split; [lia|].
    exists (firstn (Z.to_nat start) (contents f) ++ l).
    replace (Z.to_nat (start + jj + 1))
      with (Z.to_nat start + Z.to_nat (jj + 1))%nat by lia.
    rewrite firstn_plus, <- app_assoc. f_equal.
    rewrite <- Hl. replace (jj - 0 + 1) with (jj + 1) by lia.
    rewrite <- Hbuf, firstn_firstn. f_equal. lia.
  - (* the block is exhausted *)
    destruct Hsearch as [Hcm [l Hl]]; [lia | exists []; reflexivity |].
    cbn [app] in Hl. unfold bind at 1.
    destruct (Z.gtb_spec chars_matching 0) as [Hpos | Hzero].
    + destruct (check_remaining_spec 3 chars_matching f2)
        as (r & f' & Hrun & Hc' & Ht & Hr).
      { rewrite Hp2. unfold block_len, BLOCK_SIZE. lia. }
      { lia. }
      { right. lia. }
      rewrite Hrun.
      destruct Hr as [-> | (-> & Hp' & Hbytes)].
      * cbn. eexists; eexists; split; [reflexivity|].
        split; [congruence|]. split; [now rewrite Ht|]. now left.
      * cbn. eexists; eexists; split; [reflexivity|].
        split; [congruence|]. split; [now rewrite Ht|]. right.
        split; [reflexivity|]. rewrite Hp', Hp2.
        split; [unfold block_len, BLOCK_SIZE; lia|].
        exists (firstn (Z.to_nat start) (contents f) ++ l).
        replace (Z.to_nat (start + block_len (file_size f) + (4 - chars_matching)))
          with (Z.to_nat start
                + (Z.to_nat (block_len (file_size f))
                   + Z.to_nat (4 - chars_matching)))%nat
          by (unfold block_len, BLOCK_SIZE; lia).
        rewrite firstn_plus, <- app_assoc. f_equal.
        rewrite firstn_plus, Hbuf, Hl, <- app_assoc. f_equal.
        rewrite skipn_skipn.
        unfold unread in Hbytes. rewrite Hp2, Hc2 in Hbytes.
        replace (Z.to_nat (block_len (file_size f)) + Z.to_nat start)%nat
          with (Z.to_nat (start + block_len (file_size f)))
          by (unfold block_len, BLOCK_SIZE; lia).
        rewrite Hbytes. apply firstn_skipn.
    + assert (chars_matching = 0) by lia. subst chars_matching.
      cbn. eexists; eexists; split; [reflexivity|].
      split; [exact Hc2|]. split; [exact Ht2|]. now left.
Qed.

Lemma in_rounds_from (k : nat) :
  forall xx x, In x (rounds_from xx k) <-> xx <= x < xx + Z.of_nat k.
Proof.
  induction k as [|k IH]; intros xx x; cbn [rounds_from In].
  - lia.
  - rewrite IH. lia.
Qed.

(** The loop, from round [xx] with [todo] rounds left: it returns 0 or 1,
    having made the block reads of the rounds it ran, in order: all of them
    when it returns 1, at least one when it returns 0. *)
Lemma scan_blocks_rounds (todo : nat) :
  forall (xx : Z) (f : FILE),
    file_size f <= LLONG_MAX ->
    0 <= xx ->
    xx + Z.of_nat todo = n_blocks_of (file_size f) ->
    exists r f' k,
      scan_blocks todo (file_size f) (n_blocks_of (file_size f)) xx f
      = Ret r f' /\
      contents f' = contents f /\
      (k <= todo)%nat /\
      block_reads (trace f')
      = block_reads (trace f)
        ++ map (block_of (file_size f)) (rounds_from xx k) /\
      (r = 1 /\ k = todo \/
       r = 0 /\ (1 <= k)%nat /\ 0 <= position f' /\
       exists l, firstn (Z.to_nat (position f')) (contents f) = l ++ hdr).
Proof.
  induction todo as [|todo IH]; intros xx f Hmax Hxx Hn.
  - exists 1, f, 0%nat. cbn. rewrite app_nil_r. repeat split; auto.
  - cbn [scan_blocks]. unfold bind.
    destruct (scan_block_spec f xx Hmax) as (r1 & f1 & Hrun & Hc1 & Ht1 & Hr1);
      [lia|].
    rewrite Hrun.
    assert (Hsz : file_size f1 = file_size f)
      by (unfold file_size; now rewrite Hc1).
    destruct Hr1 as [-> | (-> & Hp1 & Hl1)].
    + destruct (IH (xx + 1) f1) as (r & f' & k & Hrun' & Hc' & Hk & Ht' & Hr');
        [try rewrite Hsz; lia ..|].
      rewrite Hsz in Hrun', Ht'. rewrite Hc1 in Hc', Hr'.
      exists r, f', (S k). split; [exact Hrun'|]. split; [exact Hc'|].
      split; [lia|]. split.
      * rewrite Ht', Ht1, <- app_assoc. reflexivity.
      * destruct Hr' as [[-> ->] | (H0 & _ & H1)];
          [left; auto | right; split; [exact H0 | split; [lia | exact H1]]].
    + exists 0, f1, 1%nat. split; [reflexivity|]. split; [exact Hc1|].
      split; [lia|]. split; [exact Ht1|]. right. auto.
Qed.

Lemma scan_blocks_spec (todo : nat) :
  forall (xx : Z) (f : FILE),
    file_size f <= LLONG_MAX ->
    0 <= xx ->
    xx + Z.of_nat todo = n_blocks_of (file_size f) ->
    exists r f' k,
      scan_blocks todo (file_size f) (n_blocks_of (file_size f)) xx f
      = Ret r f' /\
      contents f' = contents f /\
      (k <= todo)%nat /\
      block_reads (trace f')
      = block_reads (trace f)
        ++ map (block_of (file_size f)) (rounds_from xx k) /\
      (r = 1 /\ k = todo \/
       r = 0 /\ 0 <= position f' /\
       exists l, firstn (Z.to_nat (position f')) (contents f) = l ++ hdr).
Proof.
  intros xx f Hmax Hxx Hn.
  destruct (scan_blocks_rounds todo xx f Hmax Hxx Hn)
    as (r & f' & k & Hrun & Hc & Hk & Ht & Hr).
  exists r, f', k. repeat (split; [assumption|]).
  destruct Hr as [H1 | (H0 & _ & H2)]; [left; exact H1 | right; split; assumption].
Qed.

(** [move_to_header], called with the size of the file as [main] does,
    always returns to its caller: none of its [exit] calls is reached. *)
Lemma move_to_header_spec (f : FILE) :
  file_size f <= LLONG_MAX ->
  exists r f' k,
    move_to_header (file_size f) f = Ret r f' /\
    contents f' = contents f /\
    (k <= Z.to_nat (n_blocks_of (file_size f)))%nat /\
    block_reads (trace f')
    = block_reads (trace f)
      ++ map (block_of (file_size f)) (rounds_from 0 k) /\
    (r = 1 /\ k = Z.to_nat (n_blocks_of (file_size f)) \/
     r = 0 /\ 0 <= position f' /\
     exists l, firstn (Z.to_nat (position f')) (contents f) = l ++ hdr).
Proof.
  intros Hmax. unfold move_to_header.
  apply scan_blocks_spec; [exact Hmax | lia |].
  assert (Hf : 0 <= file_size f) by (unfold file_size; lia).
  pose proof (n_blocks_of_bounds _ Hf). lia.
Qed.

(** C6, as stated, fails: on a file of 20000 bytes without the tag the
    second round reads 16384 bytes from offset 3616, the block that ends
    with the file, not the block of the partition that starts at 16384. *)
Lemma odd_round_is_not_partition_block :
  let f := fopen (zeros 20000) in
  let o := move_to_header (file_size f) f in
  returned o = Some 1 /\
  block_reads (trace (stream_of o)) = [(0, 16384); (3616, 16384)] /\
  map fst (block_reads (trace (stream_of o)))
  <> map (partition_block_start (file_size f)) (rounds_from 0 2).
Proof.
  split; [vm_compute; reflexivity|].
  split; [vm_compute; reflexivity|].
  vm_compute. discriminate.
Qed.

(** The size is a multiple of the block size exactly when it is the
    number of blocks times the block size. *)
Lemma multiple_iff_whole_blocks (fsize : Z) :
  0 <= fsize ->
  (fsize = n_blocks_of fsize * BLOCK_SIZE <-> fsize mod BLOCK_SIZE = 0).
Proof.
  intros Hf. unfold n_blocks_of, BLOCK_SIZE.
  rewrite Z.rem_mod_nonneg, Z.quot_div_nonneg by lia.
  destruct (Z.gtb_spec (fsize mod 16384) 0); euclid.
Qed.

(** C6, amended.  The locator reads one block per round, in the order of
    the rounds: an even round [xx] reads from offset
    [(xx / 2) * BLOCK_SIZE], an odd round reads the block that ends
    [(xx - 1) / 2] blocks before the end of the file, from offset
    [fsize - ((xx - 1) / 2 + 1) * BLOCK_SIZE].  When no match ends the scan
    it returns 1 and all [n_blocks] rounds are made; when it returns 0 at
    least one round was made and the tag ends at the cursor.  The odd
    rounds fall on blocks of the partition, of index
    [n_blocks - 1 - (xx - 1) / 2], when the size is a multiple of
    [BLOCK_SIZE], and only then. *)
Theorem blocks_alternate_front_and_back (f : FILE) :
  file_size f <= LLONG_MAX ->
  let fsize := file_size f in
  let n_blocks := n_blocks_of fsize in
  exists r f' k,
    move_to_header fsize f = Ret r f' /\
    (k <= Z.to_nat n_blocks)%nat /\
    (r = 1 /\ k = Z.to_nat n_blocks \/
     r = 0 /\ (1 <= k)%nat /\
     exists l, firstn (Z.to_nat (position f')) (contents f) = l ++ hdr) /\
    block_reads (trace f')
    = block_reads (trace f)
      ++ map (fun xx =>
                (if Z.even xx then (xx / 2) * BLOCK_SIZE
                 else fsize - ((xx - 1) / 2 + 1) * BLOCK_SIZE,
                 Z.min BLOCK_SIZE fsize))
             (rounds_from 0 k) /\
    (forall xx,
       fsize - ((xx - 1) / 2 + 1) * BLOCK_SIZE
       = (n_blocks - 1 - (xx - 1) / 2) * BLOCK_SIZE
       <-> fsize mod BLOCK_SIZE = 0).
Proof.
  intros Hmax fsize n_blocks.
  assert (Hf : 0 <= fsize) by (unfold fsize, file_size; lia).
  destruct (scan_blocks_rounds (Z.to_nat n_blocks) 0 f Hmax)
    as (r & f' & k & Hrun & _ & Hk & Ht & Hr).
  { lia. }
  { pose proof (n_blocks_of_bounds _ Hf). subst n_blocks fsize. lia. }
  exists r, f', k. split; [exact Hrun|]. split; [exact Hk|]. split.
  { destruct Hr as [H1 | (H0 & Hk1 & _ & Hl)]; [left; exact H1 | right; auto]. }
  split; [exact Ht|].
  intros xx. rewrite <- (multiple_iff_whole_blocks fsize Hf).
  fold n_blocks. lia.
Qed.

Lemma blocks_alternate_front_and_back_witness :
  let f := fopen (zeros 40000) in
  file_size f <= LLONG_MAX /\
  exists r f' k,
    move_to_header (file_size f) f = Ret r f' /\
    (k <= Z.to_nat (n_blocks_of (file_size f)))%nat /\
    (r = 1 /\ k = Z.to_nat (n_blocks_of (file_size f)) \/
     r = 0 /\ (1 <= k)%nat /\
     exists l, firstn (Z.to_nat (position f')) (contents f) = l ++ hdr) /\
    block_reads (trace f')
    = block_reads (trace f)
      ++ map (fun xx =>
                (if Z.even xx then (xx / 2) * BLOCK_SIZE
                 else file_size f - ((xx - 1) / 2 + 1) * BLOCK_SIZE,
                 Z.min BLOCK_SIZE (file_size f)))
             (rounds_from 0 k) /\
    (forall xx,
       file_size f - ((xx - 1) / 2 + 1) * BLOCK_SIZE
       = (n_blocks_of (file_size f) - 1 - (xx - 1) / 2) * BLOCK_SIZE
       <-> file_size f mod BLOCK_SIZE = 0).
Proof.
  intros f.
  assert (H : file_size f <= LLONG_MAX) by (vm_compute; discriminate).
  split; [exact H|]. exact (blocks_alternate_front_and_back f H).
Defined.

(** ** Coverage *)

Lemma block_start_front (fsize i : Z) :
  block_start fsize (2 * i) = i * BLOCK_SIZE.
Proof.
  unfold block_start. rewrite Z.even_mul. cbn [Z.even orb].
  f_equal. euclid.
Qed.

Lemma block_start_back (fsize k : Z) :
  block_start fsize (2 * k + 1) = fsize - (k + 1) * BLOCK_SIZE.
Proof.
  unfold block_start. rewrite Z.even_add, Z.even_mul.
  change (Z.even 2) with true. change (Z.even 1) with false.
  cbn [orb Bool.eqb].
  replace ((2 * k + 1 - 1) / 2) with k by euclid. reflexivity.
Qed.

(** Every offset of a file lies in the block of some round. *)
Lemma some_round_covers (fsize o : Z) :
  0 <= o < fsize ->
  exists xx,
    0 <= xx < n_blocks_of fsize /\
    block_start fsize xx <= o < block_start fsize xx + block_len fsize.
Proof.
  intros Ho.
  assert (Hf : 0 <= fsize) by lia.
  pose proof (n_blocks_of_bounds fsize Hf) as (Hn & Hlo & Hhi).
  destruct (Z.eqb_spec fsize 0) as [E0|E0]; [lia|]. cbn [Z.b2z] in Hlo.
  set (n := n_blocks_of fsize) in *.
  destruct (Z_lt_le_dec (2 * (o / BLOCK_SIZE)) n) as [Hfront | Hback].
  - exists (2 * (o / BLOCK_SIZE)). rewrite block_start_front.
    unfold block_len, BLOCK_SIZE in *. euclid.
  - exists (2 * ((fsize - 1 - o) / BLOCK_SIZE) + 1). rewrite block_start_back.
    unfold block_len, BLOCK_SIZE in *. euclid.
Qed.

(** When the size is not a multiple of the block size, the innermost block
    counted from the end begins inside the innermost block counted from
    the start. *)
Lemma innermost_blocks_overlap (fsize : Z) :
  0 <= fsize ->
  fsize mod BLOCK_SIZE <> 0 ->
  2 <= n_blocks_of fsize ->
  exists o front back,
    0 <= front < n_blocks_of fsize /\ Z.even front = true /\
    0 <= back < n_blocks_of fsize /\ Z.even back = false /\
    block_start fsize front <= o < block_start fsize front + block_len fsize /\
    block_start fsize back <= o < block_start fsize back + block_len fsize.
Proof.
  intros Hf Hmod Hn2.
  pose proof (n_blocks_of_bounds fsize Hf) as (Hn & Hlo & Hhi).
  destruct (Z.eqb_spec fsize 0) as [E0|E0]; [subst; cbn in Hn2; lia|].
  cbn [Z.b2z] in Hlo.
  set (n := n_blocks_of fsize) in *.
  set (i := (n - 1) / 2). set (k := (n - 2) / 2).
  exists (fsize - (k + 1) * BLOCK_SIZE), (2 * i), (2 * k + 1).
  rewrite block_start_front, block_start_back.
  rewrite Z.even_mul, Z.even_add, Z.even_mul.
  change (Z.even 2) with true. change (Z.even 1) with false.
  cbn [orb Bool.eqb].
  assert (Hmod' : fsize < n * BLOCK_SIZE).
  { destruct (Z.eq_dec fsize (n * BLOCK_SIZE)) as [E|E]; [|lia].
    exfalso. apply Hmod. rewrite E. apply Z_mod_mult. }
  unfold block_len, BLOCK_SIZE in *. subst i k.
  repeat split; try reflexivity; euclid.
Qed.

(** C9, as stated, fails for the files of [MIN_SIZE] to [BLOCK_SIZE - 1]
    bytes: the size is not a multiple of [BLOCK_SIZE], but the scan is one
    round, which reads the whole file from offset 0; no block aligned on
    the end of the file is read, so no two blocks overlap. *)
Lemma short_file_is_read_as_one_block :
  let f := fopen (zeros 100) in
  let fsize := file_size f in
  let o := move_to_header fsize f in
  MIN_SIZE <= fsize /\
  fsize mod BLOCK_SIZE <> 0 /\
  returned o = Some 1 /\
  block_reads (trace (stream_of o)) = [(0, 100)] /\
  ~ (exists k len, 1 <= k /\
       In (fsize - k * BLOCK_SIZE, len) (block_reads (trace (stream_of o)))).
Proof.
  intros f fsize o.
  assert (Hreads : block_reads (trace (stream_of o)) = [(0, 100)])
    by (vm_compute; reflexivity).
  split; [vm_compute; discriminate|].
  split; [vm_compute; discriminate|].
  split; [vm_compute; reflexivity|].
  split; [exact Hreads|].
  intros (k & len & Hk & Hin). rewrite Hreads in Hin.
  destruct Hin as [E | []].
  assert (E0 : 0 = fsize - k * BLOCK_SIZE) by exact (f_equal fst E).
  assert (Hsize : fsize = 100) by reflexivity.
  unfold BLOCK_SIZE in E0. lia.
Qed.

(** C9, amended.  When no match ends the scan, the blocks read by the
    rounds of [move_to_header], aligned on the start of the file in even
    rounds and on its end in odd rounds, cover every offset of the file.  A
    file of at most [BLOCK_SIZE] bytes is read as one block, the whole
    file; when the file is longer than that and its size is not a multiple
    of [BLOCK_SIZE], a block from the start and a block from the end share
    a byte. *)
Theorem blocks_cover_file (f f' : FILE) :
  MIN_SIZE <= file_size f <= LLONG_MAX ->
  move_to_header (file_size f) f = Ret 1 f' ->
  let fsize := file_size f in
  exists reads,
    block_reads (trace f') = block_reads (trace f) ++ reads /\
    (forall off len, In (off, len) reads ->
       exists xx, 0 <= xx < n_blocks_of fsize /\ len = Z.min BLOCK_SIZE fsize /\
         (off = (xx / 2) * BLOCK_SIZE
          \/ off = fsize - ((xx - 1) / 2 + 1) * BLOCK_SIZE)) /\
    (forall o, 0 <= o < fsize ->
       exists off len, In (off, len) reads /\ off <= o < off + len) /\
    (fsize mod BLOCK_SIZE <> 0 -> BLOCK_SIZE < fsize ->
     exists o i k,
       In (i * BLOCK_SIZE, BLOCK_SIZE) reads /\
       In (fsize - (k + 1) * BLOCK_SIZE, BLOCK_SIZE) reads /\
       i * BLOCK_SIZE <= o < i * BLOCK_SIZE + BLOCK_SIZE /\
       fsize - (k + 1) * BLOCK_SIZE <= o < fsize - k * BLOCK_SIZE) /\
    (fsize <= BLOCK_SIZE -> reads = [(0, fsize)]).
Proof.
  intros [Hmin Hmax] Hrun fsize.
  assert (Hf : 0 <= fsize) by (unfold fsize, file_size; lia).
  destruct (move_to_header_spec f Hmax) as (r & g & k & Hrun' & _ & _ & Ht & Hr).
  rewrite Hrun in Hrun'. injection Hrun' as <- <-.
  destruct Hr as [[_ ->] | [H0 _]]; [|discriminate].
  pose proof (n_blocks_of_bounds fsize Hf) as (Hn & _ & _).
  exists (map (block_of fsize) (rounds_from 0 (Z.to_nat (n_blocks_of fsize)))).
  split; [exact Ht|]. split; [|split; [|split]].
  - intros off len Hin. apply in_map_iff in Hin.
    destruct Hin as (xx & Hxx & Hin). apply in_rounds_from in Hin.
    exists xx. split; [lia|]. unfold block_of, block_start, block_len in Hxx.
    injection Hxx as <- <-. split; [reflexivity|].
    destruct (Z.even xx); auto.
  - intros o Ho. destruct (some_round_covers fsize o Ho) as (xx & Hxx & Hcov).
    exists (block_start fsize xx), (block_len fsize). split; [|exact Hcov].
    apply (in_map (block_of fsize)). apply in_rounds_from. lia.
  - intros Hmod Hlong.
    assert (Hn2 : 2 <= n_blocks_of fsize).
    { pose proof (n_blocks_of_bounds fsize Hf) as (_ & _ & Hhi).
      unfold BLOCK_SIZE in *. lia. }
    destruct (innermost_blocks_overlap fsize Hf Hmod Hn2)
      as (o & front & back & Hfr & Hfe & Hbk & Hbe & Hcf & Hcb).
    apply Z.even_spec in Hfe. destruct Hfe as [i ->].
    rewrite <- Z.negb_odd in Hbe. apply negb_false_iff, Z.odd_spec in Hbe.
    destruct Hbe as [b ->].
    rewrite block_start_front in Hcf. rewrite block_start_back in Hcb.
    assert (Hbl : block_len fsize = BLOCK_SIZE) by (unfold block_len; lia).
    rewrite Hbl in Hcf, Hcb.
    exists o, i, b. repeat split; try lia.
    + rewrite <- (block_start_front fsize i), <- Hbl.
      apply (in_map (block_of fsize)). apply in_rounds_from. lia.
    + rewrite <- (block_start_back fsize b), <- Hbl.
      apply (in_map (block_of fsize)). apply in_rounds_from. lia.
  - intros Hshort. fold fsize in Hmin.
    assert (Hone : n_blocks_of fsize = 1).
    { pose proof (n_blocks_of_bounds fsize Hf) as (_ & Hlo & Hhi).
      destruct (Z.eqb_spec fsize 0) as [E0 | E0];
        [unfold MIN_SIZE in Hmin; lia|].
      cbn [Z.b2z] in Hlo. unfold MIN_SIZE, BLOCK_SIZE in *. lia. }
    rewrite Hone. change (Z.to_nat 1) with 1%nat.
    cbn [rounds_from map]. unfold block_of, block_start, block_len.
    cbn [Z.even]. change (0 / 2 * BLOCK_SIZE) with 0.
    rewrite Z.min_r by exact Hshort. reflexivity.
Qed.

Lemma blocks_cover_file_witness :
  let f := fopen (zeros 20000) in
  let o := move_to_header (file_size f) f in
  (MIN_SIZE <= file_size f <= LLONG_MAX) /\
  exists reads,
    block_reads (trace (stream_of o)) = block_reads (trace f) ++ reads /\
    (forall p, 0 <= p < file_size f ->
       exists off len, In (off, len) reads /\ off <= p < off + len).
Proof.
  intros f o.
  assert (Hsz : MIN_SIZE <= file_size f <= LLONG_MAX)
    by (split; vm_compute; discriminate).
  assert (Hrun : o = Ret 1 (stream_of o))
    by (apply returned_stream; vm_compute; reflexivity).
  split; [exact Hsz|].
  destruct (blocks_cover_file f (stream_of o) Hsz Hrun)
    as (reads & Ht & _ & Hcov & _ & _).
  exists reads. split; [exact Ht | exact Hcov].
Defined.

(** ** What the locator reports *)

(** When [move_to_header] returns 0 the cursor stands right behind an
    occurrence of the tag. *)
Lemma move_to_header_found_after_tag (f f' : FILE) :
  file_size f <= LLONG_MAX ->
  move_to_header (file_size f) f = Ret 0 f' ->
  0 <= position f' /\
  exists l, firstn (Z.to_nat (position f')) (contents f) = l ++ hdr.
Proof.
  intros Hmax Hrun.
  destruct (move_to_header_spec f Hmax) as (r & g & k & Hrun' & _ & _ & _ & Hr).
  rewrite Hrun in Hrun'. injection Hrun' as <- <-.
  destruct Hr as [[H1 _] | [_ H0]]; [discriminate | exact H0].
Qed.

(** *** Which occurrences the matcher sees *)

Lemma hdr_at_streak_byte (cm : Z) : 0 <= cm <= 2 -> streak_byte (hdr_at cm).
Proof.
  intros H. assert (Hc : cm = 0 \/ cm = 1 \/ cm = 2) by lia.
  unfold streak_byte. destruct Hc as [-> | [-> | ->]]; cbn; auto.
Qed.

(** Running the matcher over a prefix either finds the tag in it or
    arrives at the rest of the block with some streak: the one it started
    with for an empty prefix, none after a byte that carries no streak. *)
Lemma search_block_prefix (pre rest : list byte) :
  forall jj cm,
    0 <= cm <= 3 ->
    (exists j, search_block (pre ++ rest) jj cm = inl j) \/
    (exists c,
       0 <= c <= 3 /\
       search_block (pre ++ rest) jj cm
       = search_block rest (jj + Z.of_nat (length pre)) c /\
       (pre = [] -> c = cm) /\
       (forall pre' b, pre = pre' ++ [b] -> ~ streak_byte b -> c = 0)).
Proof.
  induction pre as [|a pre IH]; intros jj cm Hcm.
  - right. exists cm. cbn [app length Z.of_nat]. rewrite Z.add_0_r.
    repeat split; auto; try lia.
    intros [|x pre'] b Hb; discriminate Hb.
  - cbn [app search_block length].
    assert (Hlast : forall c0 c,
               (pre = [] -> c = c0) ->
               (forall pre' b, pre = pre' ++ [b] -> ~ streak_byte b -> c = 0) ->
               (~ streak_byte a -> c0 = 0) ->
               forall pre' b, a :: pre = pre' ++ [b] -> ~ streak_byte b -> c = 0).
    { intros c0 c Hnil Htail Ha [|x pre'] b Hb Hnb.
      - injection Hb as -> ->. rewrite (Hnil eq_refl). auto.
      - injection Hb as _ Hb. eauto. }
    destruct (Byte.eqb a (hdr_at cm)) eqn:Ha.
    + apply Byte.byte_dec_bl in Ha.
      destruct (Z.eqb_spec (cm + 1) 4) as [H4 | H4]; [left; eauto|].
      destruct (IH (jj + 1) (cm + 1)) as [Hfound | (c & Hc & Heq & Hnil & Htail)];
        [lia | now left |].
      right. exists c. split; [exact Hc|]. split.
      { rewrite Heq. f_equal. lia. }
      split; [discriminate|].
      apply (Hlast (cm + 1)); auto.
      intros Hna. exfalso. apply Hna. rewrite Ha. apply hdr_at_streak_byte. lia.
    + destruct (IH (jj + 1) 0) as [Hfound | (c & Hc & Heq & Hnil & Htail)];
        [lia | now left |].
      right. exists c. split; [exact Hc|]. split.
      { rewrite Heq. f_equal. lia. }
      split; [discriminate|].
      apply (Hlast 0); auto.
Qed.

(** A block that holds the start of a tag after a clean byte: the matcher
    finds a tag in the block, or, when the block ends inside this one, stops
    with the streak of the [n] bytes it has seen of it. *)
Lemma search_block_sees_tag (pre tail : list byte) (n : nat) :
  (forall pre' b, pre = pre' ++ [b] -> ~ streak_byte b) ->
  (n = 4%nat \/ (1 <= n <= 3)%nat /\ tail = []) ->
  (exists j, search_block (pre ++ firstn n hdr ++ tail) 0 0 = inl j) \/
  ((1 <= n <= 3)%nat /\
   search_block (pre ++ firstn n hdr ++ tail) 0 0 = inr (Z.of_nat n)).
Proof.
  intros Hclean Hn.
  destruct (search_block_prefix pre (firstn n hdr ++ tail) 0 0)
    as [Hfound | (c & Hc & Heq & Hnil & Hlast)]; [lia | now left |].
  assert (c = 0) as ->.
  { destruct pre as [|a pre] using rev_ind; [now apply Hnil|].
    eapply Hlast; [reflexivity|]. eapply Hclean. reflexivity. }
  rewrite Heq.
  destruct Hn as [-> | [Hn ->]].
  - left. eexists. reflexivity.
  - right. split; [exact Hn|].
    assert (Hcases : n = 1%nat \/ n = 2%nat \/ n = 3%nat) by lia.
    destruct Hcases as [-> | [-> | ->]]; reflexivity.
Qed.

(** With the rest of the tag next in the stream, the loop that follows a
    streak completes it. *)
Lemma check_remaining_completes (rounds : nat) (rest : list byte) :
  forall (cm : Z) (f : FILE),
    0 <= position f ->
    1 <= cm <= 4 ->
    4 - cm <= Z.of_nat rounds ->
    unread f = skipn (Z.to_nat cm) hdr ++ rest ->
    exists f', check_remaining rounds cm f = Ret 4 f'.
Proof.
  induction rounds as [|rounds IH]; intros cm f Hp Hcm Hfuel Hu.
  - assert (cm = 4) as -> by lia. cbn. eauto.
  - assert (Hc : cm = 4 \/ 1 <= cm <= 3) by lia.
    destruct Hc as [-> | Hc]; [cbn; eauto|].
    cbn [check_remaining].
    replace (negb (cm =? 0) && negb (cm =? 4)) with true
      by (destruct (Z.eqb_spec cm 0); destruct (Z.eqb_spec cm 4);
          try lia; reflexivity).
    assert (Hu' : unread f
                  = hdr_at cm :: skipn (Z.to_nat (cm + 1)) hdr ++ rest).
    { rewrite Hu. assert (Hcases : cm = 1 \/ cm = 2 \/ cm = 3) by lia.
      destruct Hcases as [-> | [-> | ->]]; reflexivity. }
    unfold bind, fgetc. rewrite Hu'. rewrite Z.eqb_refl.
    apply IH.
    + cbn [position]. lia.
    + lia.
    + lia.
    + eapply unread_advance; [exact Hp | exact Hu'].
Qed.

(** The part of a block from the start of a tag on: the whole tag and
    what follows, or the [n] bytes of the tag that fit. *)
Lemma block_from_tag (bytes : list byte) (s len o : nat) :
  tag_at bytes o ->
  (s <= o < s + len)%nat ->
  exists n tail,
    firstn len (skipn s bytes)
    = firstn (o - s) (skipn s bytes) ++ firstn n hdr ++ tail /\
    (n = 4%nat \/ (1 <= n <= 3)%nat /\ tail = [] /\ (s + len = o + n)%nat).
Proof.
  unfold tag_at. intros Htag Ho.
  assert (Hsplit : skipn o bytes = hdr ++ skipn 4 (skipn o bytes)).
  { rewrite <- Htag at 1. symmetry. apply firstn_skipn. }
  assert (Hbuf : firstn len (skipn s bytes)
                 = firstn (o - s) (skipn s bytes)
                   ++ firstn (len - (o - s)) hdr
                   ++ firstn (len - (o - s) - 4) (skipn 4 (skipn o bytes))).
  { replace len with ((o - s) + (len - (o - s)))%nat at 1 by lia.
    rewrite firstn_plus, skipn_skipn.
    replace (o - s + s)%nat with o by lia.
    rewrite Hsplit at 1. rewrite firstn_app. reflexivity. }
  destruct (Nat.le_gt_cases 4 (len - (o - s))) as [Hge | Hlt].
  - exists 4%nat, (firstn (len - (o - s) - 4) (skipn 4 (skipn o bytes))).
    split; [|now left].
    rewrite Hbuf, (firstn_all2 hdr) by (cbn; lia). reflexivity.
  - exists (len - (o - s))%nat, [].
    split; [|right; repeat split; lia].
    rewrite Hbuf.
    replace (len - (o - s) - 4)%nat with 0%nat by lia. reflexivity.
Qed.

(** The round whose block holds the start of a tag that follows a clean
    byte reports the header. *)
Lemma scan_block_finds_tag (f : FILE) (xx : Z) (o : nat) :
  file_size f <= LLONG_MAX ->
  0 <= xx < n_blocks_of (file_size f) ->
  tag_at (contents f) o ->
  clean_before (contents f) o ->
  block_start (file_size f) xx <= Z.of_nat o
  < block_start (file_size f) xx + block_len (file_size f) ->
  exists f',
    scan_block (file_size f) (n_blocks_of (file_size f)) xx f
    = Ret (Some 0) f'.
Proof.
  intros Hmax Hx Htag Hclean Ho.
  assert (Hf : 0 <= file_size f) by (unfold file_size; lia).
  pose proof (block_start_in_file _ _ Hf Hx) as [Hs0 Hs1].
  destruct (scan_block_unfold f xx Hmax Hx)
    as (buf & f2 & Hbuf & Hlen & Hf2 & ->).
  remember (block_start (file_size f) xx) as start eqn:Hstart.
  remember (block_len (file_size f)) as blen eqn:Hblen.
  assert (Hb0 : 0 <= blen) by (rewrite Hblen; unfold block_len, BLOCK_SIZE; lia).
  assert (Hc2 : contents f2 = contents f) by (now rewrite Hf2).
  assert (Hp2 : position f2 = start + blen) by (now rewrite Hf2).
  clear Hf2.
  destruct (block_from_tag (contents f) (Z.to_nat start) (Z.to_nat blen) o Htag)
    as (n & tail & Hparts & Hn); [lia|].
  rewrite <- Hbuf in Hparts.
  set (pre := firstn (o - Z.to_nat start) (skipn (Z.to_nat start) (contents f)))
    in *.
  assert (Hpre : forall pre' b, pre = pre' ++ [b] -> ~ streak_byte b).
  { intros pre' b Hb. apply (Hclean (firstn (Z.to_nat start) (contents f) ++ pre')).
    replace o with (Z.to_nat start + (o - Z.to_nat start))%nat at 1 by lia.
    rewrite firstn_plus. fold pre. rewrite Hb, app_assoc. reflexivity. }
  pose proof (search_block_spec buf 0 0 []) as Hsearch.
  assert (Hsees : (exists j, search_block buf 0 0 = inl j) \/
                  ((1 <= n <= 3)%nat /\
                   search_block buf 0 0 = inr (Z.of_nat n))).
  { rewrite Hparts. apply search_block_sees_tag; [exact Hpre|].
    destruct Hn as [-> | (Hn & -> & _)]; auto. }
  destruct Hsees as [[j Hj] | [Hn13 Hj]]; rewrite Hj in *.
  - destruct Hsearch as [Hjj _]; [lia | exists []; reflexivity |].
    unfold bind.
    rewrite (fseek_ok _ SEEK_CUR f2 (start + j + 1)) by lia.
    change (negb (0 =? 0)) with false. cbv beta iota. unfold ret. eauto.
  - destruct Hn as [-> | (_ & _ & Hend)]; [lia|].
    unfold bind.
    replace (Z.of_nat n >? 0) with true by (symmetry; apply Z.gtb_lt; lia).
    destruct (check_remaining_completes 3 (skipn 4 (skipn o (contents f)))
                (Z.of_nat n) f2) as [f' Hrun].
    + lia.
    + lia.
    + lia.
    + unfold unread. rewrite Hp2, Hc2, Nat2Z.id.
      replace (Z.to_nat (start + blen)) with (n + o)%nat by lia.
      rewrite <- skipn_skipn.
      assert (Hsplit : skipn o (contents f)
                       = hdr ++ skipn 4 (skipn o (contents f))).
      { unfold tag_at in Htag. rewrite <- Htag at 1. symmetry.
        apply firstn_skipn. }
      rewrite Hsplit at 1. rewrite skipn_app. change (length hdr) with 4%nat.
      replace (n - 4)%nat with 0%nat by lia. reflexivity.
    + rewrite Hrun. change (4 =? 4) with true. cbv iota. unfold ret. eauto.
Qed.

(** The loop reports the header if one of its rounds holds such a tag. *)
Lemma scan_blocks_finds_tag (o : nat) (target : Z) (todo : nat) :
  forall (xx : Z) (f : FILE),
    file_size f <= LLONG_MAX ->
    0 <= xx ->
    xx + Z.of_nat todo = n_blocks_of (file_size f) ->
    xx <= target < n_blocks_of (file_size f) ->
    tag_at (contents f) o ->
    clean_before (contents f) o ->
    block_start (file_size f) target <= Z.of_nat o
    < block_start (file_size f) target + block_len (file_size f) ->
    exists f',
      scan_blocks todo (file_size f) (n_blocks_of (file_size f)) xx f
      = Ret 0 f'.
Proof.
  induction todo as [|todo IH]; intros xx f Hmax Hxx Hn Ht Htag Hclean Ho;
    [lia|].
  cbn [scan_blocks]. unfold bind.
  destruct (Z.eq_dec xx target) as [-> | Hne].
  - destruct (scan_block_finds_tag f target o) as [f' Hrun]; auto; [lia|].
    rewrite Hrun. unfold ret. eauto.
  - destruct (scan_block_spec f xx Hmax) as (r1 & f1 & Hrun & Hc1 & _ & Hr1);
      [lia|].
    rewrite Hrun.
    destruct Hr1 as [-> | (-> & _)]; [|unfold ret; eauto].
    assert (Hsz : file_size f1 = file_size f)
      by (unfold file_size; now rewrite Hc1).
    rewrite <- Hsz. apply IH; rewrite ?Hsz, ?Hc1; auto; lia.
Qed.

(** [move_to_header] finds every tag that stands at the start of the file
    or behind a byte other than [m], [v] and [h], wherever the tag lies with
    respect to the blocks, and leaves the cursor behind a tag. *)
Theorem move_to_header_finds_clean_tag (f : FILE) (o : nat) :
  file_size f <= LLONG_MAX ->
  tag_at (contents f) o ->
  clean_before (contents f) o ->
  exists f',
    move_to_header (file_size f) f = Ret 0 f' /\
    0 <= position f' /\
    exists l, firstn (Z.to_nat (position f')) (contents f) = l ++ hdr.
Proof.
  intros Hmax Htag Hclean.
  assert (Ho : 0 <= Z.of_nat o < file_size f).
  { unfold tag_at in Htag. apply (f_equal (@length byte)) in Htag.
    rewrite length_firstn, length_skipn in Htag. cbn [length hdr] in Htag.
    unfold file_size. lia. }
  assert (Hf : 0 <= file_size f) by lia.
  destruct (some_round_covers (file_size f) (Z.of_nat o) Ho)
    as (target & Ht & Hcov).
  pose proof (n_blocks_of_bounds _ Hf) as (Hn & _ & _).
  destruct (scan_blocks_finds_tag o target
              (Z.to_nat (n_blocks_of (file_size f))) 0 f)
    as [f' Hrun]; auto; try lia.
  exists f'. split; [exact Hrun|].
  now apply move_to_header_found_after_tag.
Qed.

(** A tag split across the first block boundary, [mv] ending block 0 and
    [hd] starting block 1, is found. *)
Lemma tag_split_across_blocks_is_found :
  let o := Z.to_nat (BLOCK_SIZE - 2) in
  let f := fopen (zeros (BLOCK_SIZE - 2) ++ hdr ++ zeros 100) in
  file_size f <= LLONG_MAX /\
  tag_at (contents f) o /\
  exists f', move_to_header (file_size f) f = Ret 0 f' /\ 0 <= position f'.
Proof.
  intros o f.
  assert (Hmax : file_size f <= LLONG_MAX) by (vm_compute; discriminate).
  assert (Htag : tag_at (contents f) o) by (vm_compute; reflexivity).
  assert (Hclean : clean_before (contents f) o).
  { intros pre b Hb.
    assert (Hlast : last (firstn o (contents f)) x00 = x00)
      by (vm_compute; reflexivity).
    rewrite Hb, last_last in Hlast. subst b.
    intros [H | [H | H]]; discriminate H. }
  split; [exact Hmax|]. split; [exact Htag|].
  destruct (move_to_header_finds_clean_tag f o Hmax Htag Hclean)
    as (f' & Hrun & Hpos & _).
  exists f'. split; [exact Hrun | exact Hpos].
Defined.

(** C2, at the failing input: the tag is in the file, at offset 40, and
    [move_to_header] returns 1; the run ends with "Could not find header"
    and status 30. *)
Theorem move_to_header_misses_tag_after_m :
  let bytes := file_with_m_before_tag in
  let f := fopen bytes in
  bytes = firstn 40 bytes ++ hdr ++ skipn 44 bytes /\
  search_block bytes 0 0 = inr 0 /\
  returned (move_to_header (file_size f) f) = Some 1 /\
  main 2 (Some bytes)
  = mkRun 30 None ["Could not find header."%string] [Read 4 8; Read 0 80].
Proof.
  repeat split; vm_compute; reflexivity.
Qed.

(** ** The decoded fields *)

(** The [int] sum of four promoted bytes is the big-endian value read as a
    signed 32-bit number: bit 7 of the first byte is its sign. *)
Lemma int_of_be4_value (b0 b1 b2 b3 : byte) :
  int_of_be4 b0 b1 b2 b3
  = be_uint [b0; b1; b2; b3] - (if 128 <=? u8 b0 then 2 ^ 32 else 0).
Proof.
  unfold int_of_be4, be_uint. cbn [fold_left].
  rewrite !Z.shiftl_mul_pow2 by lia.
  bytes_in_range.
  rewrite (to_int_small (u8 b2 * 2 ^ 8)) by lia.
  rewrite (to_int_small (u8 b1 * 2 ^ 16)) by lia.
  rewrite (to_int_small (u8 b3 + _)) by lia.
  rewrite (to_int_small (u8 b3 + _ + _)) by lia.
  destruct (Z.leb_spec 128 (u8 b0)) as [Hhi | Hlo].
  - assert (Hs : to_int (u8 b0 * 2 ^ 24) = u8 b0 * 2 ^ 24 - 2 ^ 32).
    { unfold to_int.
      replace (u8 b0 * 2 ^ 24 + 2 ^ 31)
        with (u8 b0 * 2 ^ 24 - 2 ^ 31 + 1 * 2 ^ 32) by lia.
      rewrite Z_mod_plus_full, Z.mod_small; lia. }
    rewrite Hs, to_int_small; lia.
  - rewrite (to_int_small (u8 b0 * 2 ^ 24)) by lia.
    rewrite to_int_small; lia.
Qed.

(** The timescale is decoded exactly when its first byte is below 128. *)
Lemma unit_per_sec_of_exact (b0 b1 b2 b3 : byte) :
  u8 b0 < 128 ->
  unit_per_sec_of [b0; b1; b2; b3] = be_uint [b0; b1; b2; b3].
Proof.
  intros Hlo. unfold unit_per_sec_of. cbn [nth].
  rewrite int_of_be4_value.
  destruct (Z.leb_spec 128 (u8 b0)); [lia|].
  unfold be_uint. cbn [fold_left]. bytes_in_range.
  rewrite to_ulong_small; lia.
Qed.

(** The 64-bit duration: exact when byte 4, the first of the low half, is
    below 128; otherwise the sign of the [int] sum is carried into the high
    half and the value is short of the stored one by [2 ^ 32], modulo
    [2 ^ 64]. *)
Lemma len_unit_of_value (b0 b1 b2 b3 b4 b5 b6 b7 : byte) :
  len_unit_of [b0; b1; b2; b3; b4; b5; b6; b7]
  = to_ulong (be_uint [b0; b1; b2; b3; b4; b5; b6; b7]
              - (if 128 <=? u8 b4 then 2 ^ 32 else 0)).
Proof.
  unfold len_unit_of. cbn [nth]. rewrite int_of_be4_value.
  unfold be_uint. cbn [fold_left].
  rewrite !Z.shiftl_mul_pow2 by lia. bytes_in_range.
  rewrite (to_ulong_small (u8 b3 * 2 ^ 32)) by lia.
  rewrite (to_ulong_small (u8 b2 * 2 ^ 40)) by lia.
  rewrite (to_ulong_small (u8 b1 * 2 ^ 48)) by lia.
  rewrite (to_ulong_small (u8 b0 * 2 ^ 56)) by lia.
  repeat match goal with
         | |- context [to_ulong (to_ulong ?a + ?b)] =>
             lazymatch a with
             | context [to_ulong] => fail
             | _ => rewrite (to_ulong_add_l a b)
             end
         end.
  f_equal. destruct (128 <=? u8 b4); ring.
Qed.

Lemma len_unit_of_exact (b0 b1 b2 b3 b4 b5 b6 b7 : byte) :
  u8 b4 < 128 ->
  len_unit_of [b0; b1; b2; b3; b4; b5; b6; b7]
  = be_uint [b0; b1; b2; b3; b4; b5; b6; b7].
Proof.
  intros Hlo. rewrite len_unit_of_value.
  destruct (Z.leb_spec 128 (u8 b4)); [lia|].
  unfold be_uint. cbn [fold_left]. bytes_in_range.
  rewrite to_ulong_small; lia.
Qed.

(** The spec's own test value, [0x1_0000_0000] units, is decoded right. *)
Example len_unit_of_2_pow_32 :
  len_unit_of [x00; x00; x00; x01; x00; x00; x00; x00] = 0x100000000.
Proof. reflexivity. Qed.

(** C3, at the failing input: the stored duration is [0x80000000]; the
    decoder makes [0xFFFFFFFF80000000] of it, and the run prints that number
    of units divided by 1000. *)
Theorem v1_duration_high_bit_sign_extends :
  let duration := [x00; x00; x00; x00; x80; x00; x00; x00] in
  be_uint duration = 0x80000000 /\
  len_unit_of duration = 0xFFFFFFFF80000000 /\
  stdout (main 2 (Some v1_file_duration_2_pow_31))
  = Some (len_sec_of 0xFFFFFFFF80000000 1000) /\
  len_sec_of 0xFFFFFFFF80000000 1000 <> len_sec_of 0x80000000 1000.
Proof.
  repeat split; try (vm_compute; reflexivity).
  vm_compute. discriminate.
Qed.

(** ** The division *)

(** C1, at the failing inputs.  With D = 2^31 and T = 1000 the duration is
    sign-extended to [2 ^ 64 - 2 ^ 31] units before the division and the
    run prints about 1.8e16 instead of 2147483.648.  With T = 2^24 + 1 the
    cast to [float] rounds the timescale to 2^24, and the quotient printed
    is that of D by 2^24.  A timescale of 2^31 or more is sign-extended as
    well. *)
Theorem v0_duration_is_not_the_quotient :
  (be_uint [x80; x00; x00; x00] = 2 ^ 31 /\
   stdout (main 2 (Some v0_file_duration_2_pow_31))
   = Some (len_sec_of (2 ^ 64 - 2 ^ 31) 1000) /\
   len_sec_of (2 ^ 64 - 2 ^ 31) 1000 <> nearest_double_quotient (2 ^ 31) 1000) /\
  (be_uint [x01; x00; x00; x01] = 2 ^ 24 + 1 /\
   Float.float_of_ulong (2 ^ 24 + 1) = Float.float_of_ulong (2 ^ 24) /\
   stdout (main 2 (Some v0_file_timescale_2_pow_24_plus_1))
   = Some (nearest_double_quotient 0x7f000000 (2 ^ 24)) /\
   nearest_double_quotient 0x7f000000 (2 ^ 24)
   <> nearest_double_quotient 0x7f000000 (2 ^ 24 + 1)) /\
  unit_per_sec_of [x80; x00; x00; x00] = 2 ^ 64 - 2 ^ 31.
Proof.
  repeat split; try (vm_compute; reflexivity); vm_compute; discriminate.
Qed.

(** The spec's scenario: timescale 1000, duration 5000, result 5.0. *)
Example five_seconds :
  main 2 (Some (sample_file "ftypisom" []
                  (v0_header [x00; x00; x03; xe8] [x00; x00; x13; x88])))
  = mkRun 0 (Some (nearest_double_quotient 5 1)) []
          [Read 4 8; Read 0 80; Getc 44; Read 56 4; Read 60 4].
Proof. vm_compute. reflexivity. Qed.

(** ** Rounding to [float] and [double] *)

(** The number of binary digits of a mantissa. *)
Lemma digits2_pos_bounds (p : positive) :
  2 ^ (Zpos (digits2_pos p) - 1) <= Zpos p < 2 ^ Zpos (digits2_pos p).
Proof.
  induction p as [p IH | p IH |]; cbn [digits2_pos].
  - rewrite Pos2Z.inj_succ.
    replace (Z.succ (Zpos (digits2_pos p)) - 1)
      with (Z.succ (Zpos (digits2_pos p) - 1)) by lia.
    rewrite !Z.pow_succ_r by lia. lia.
  - rewrite Pos2Z.inj_succ.
    replace (Z.succ (Zpos (digits2_pos p)) - 1)
      with (Z.succ (Zpos (digits2_pos p) - 1)) by lia.
    rewrite !Z.pow_succ_r by lia. lia.
  - cbn. lia.
Qed.

Lemma Zdigits2_bounds (m : Z) :
  0 < m -> 2 ^ (Zdigits2 m - 1) <= m < 2 ^ Zdigits2 m.
Proof.
  destruct m as [|p|p]; try lia. intros _. apply digits2_pos_bounds.
Qed.

Lemma Zdigits2_lower (m k : Z) :
  0 <= k -> 2 ^ k <= m -> k < Zdigits2 m.
Proof.
  intros Hk Hm.
  assert (H0 : 0 < m) by (pose proof (Z.pow_pos_nonneg 2 k); lia).
  pose proof (Zdigits2_bounds m H0) as [_ Hup].
  apply (Z.pow_lt_mono_r_iff 2); [lia | destruct m; cbn; lia | lia].
Qed.

Lemma shr_1_div2 (mrs : shr_record) :
  0 <= shr_m mrs -> shr_m (shr_1 mrs) = shr_m mrs / 2.
Proof.
  destruct mrs as [m r s]. cbn [shr_m]. intros Hm.
  destruct m as [|[p|p|]|p]; cbn [shr_1 shr_m]; try lia.
  - reflexivity.
  - rewrite Pos2Z.inj_xI. apply Z.div_unique with 1; lia.
  - rewrite Pos2Z.inj_xO. apply Z.div_unique with 0; lia.
  - reflexivity.
Qed.

Lemma iter_shr_1_div (n : positive) (mrs : shr_record) :
  0 <= shr_m mrs ->
  shr_m (iter_pos shr_1 n mrs) = shr_m mrs / 2 ^ Zpos n.
Proof.
  revert mrs. induction n as [n IH | n IH |]; intros mrs Hm; cbn [iter_pos].
  - assert (H1 : 0 <= shr_m (shr_1 mrs)).
    { rewrite shr_1_div2 by assumption. apply Z.div_pos; lia. }
    assert (Hp : 0 < 2 ^ Zpos n) by (apply Z.pow_pos_nonneg; lia).
    assert (H2 : 0 <= shr_m (iter_pos shr_1 n (shr_1 mrs))).
    { rewrite IH by assumption. apply Z.div_pos; lia. }
    rewrite IH, IH, shr_1_div2 by assumption.
    rewrite !Z.div_div by lia. f_equal.
    replace (Zpos n~1) with (1 + Zpos n + Zpos n) by lia.
    rewrite !Z.pow_add_r by lia. change (2 ^ 1) with 2. ring.
  - assert (Hp : 0 < 2 ^ Zpos n) by (apply Z.pow_pos_nonneg; lia).
    assert (H2 : 0 <= shr_m (iter_pos shr_1 n mrs)).
    { rewrite IH by assumption. apply Z.div_pos; lia. }
    rewrite IH, IH by assumption. rewrite Z.div_div by lia. f_equal.
    replace (Zpos n~0) with (Zpos n + Zpos n) by lia.
    rewrite !Z.pow_add_r by lia. ring.
  - rewrite shr_1_div2 by assumption. reflexivity.
Qed.

Lemma shr_m_of_loc (m : Z) (l : location) : shr_m (shr_record_of_loc m l) = m.
Proof. destruct l as [|[ | | ]]; reflexivity. Qed.

Section Rounding.

Variables prec emax : Z.
Hypothesis Hprec : 0 < prec.

(** The shift to the exponent of the format leaves a positive mantissa
    positive when the number is above the smallest exponent. *)
Lemma shr_fexp_positive (m e : Z) (l : location) :
  0 < m ->
  emin prec emax < Zdigits2 m + e ->
  0 < shr_m (fst (shr_fexp prec emax m e l)) /\
  emin prec emax < Zdigits2 (shr_m (fst (shr_fexp prec emax m e l)))
                   + snd (shr_fexp prec emax m e l) /\
  emin prec emax <= snd (shr_fexp prec emax m e l).
Proof.
  intros Hm He. unfold shr_fexp, shr, fexp.
  remember (emin prec emax) as lo eqn:Hlo in *.
  remember (Zdigits2 m) as d eqn:Hd in *.
  destruct (Z.max (d + e - prec) lo - e) as [|n|n] eqn:Hn; cbn [fst snd].
  - rewrite shr_m_of_loc, <- Hd. lia.
  - rewrite iter_shr_1_div by (rewrite shr_m_of_loc; lia).
    rewrite shr_m_of_loc.
    pose proof (Zdigits2_bounds m Hm) as [Hlow _]. rewrite <- Hd in Hlow.
    assert (Hnd : Zpos n < d) by lia.
    assert (Hsplit : 2 ^ (d - 1) = 2 ^ (d - 1 - Zpos n) * 2 ^ Zpos n).
    { rewrite <- Z.pow_add_r by lia. f_equal. lia. }
    assert (Hp : 0 < 2 ^ Zpos n) by (apply Z.pow_pos_nonneg; lia).
    assert (Hq : 2 ^ (d - 1 - Zpos n) <= m / 2 ^ Zpos n).
    { apply Z.div_le_lower_bound; [lia|]. lia. }
    assert (Hq0 : 0 < 2 ^ (d - 1 - Zpos n)) by (apply Z.pow_pos_nonneg; lia).
    pose proof (Zdigits2_lower (m / 2 ^ Zpos n) (d - 1 - Zpos n)
                  ltac:(lia) Hq).
    lia.
  - rewrite shr_m_of_loc, <- Hd. lia.
Qed.

Lemma round_nearest_even_ge (m : Z) (l : location) :
  m <= round_nearest_even m l.
Proof.
  destruct l as [|[ | | ]]; cbn [round_nearest_even]; try lia.
  destruct (Z.even m); lia.
Qed.

Lemma Zdigits2_mono (m m' : Z) : 0 < m -> m <= m' -> Zdigits2 m <= Zdigits2 m'.
Proof.
  intros Hm Hle.
  pose proof (Zdigits2_bounds m Hm) as [Hlow _].
  assert (Hd : 0 < Zdigits2 m) by (destruct m; cbn; lia).
  pose proof (Zdigits2_lower m' (Zdigits2 m - 1) ltac:(lia) ltac:(lia)). lia.
Qed.

(** Rounding a positive mantissa above the smallest exponent gives a
    finite number or an infinity of the sign asked for. *)
Lemma binary_round_aux_positive (sx : bool) (mx ex : Z) (lx : location) :
  0 < mx ->
  emin prec emax < Zdigits2 mx + ex ->
  (exists m e, binary_round_aux prec emax sx mx ex lx = S754_finite sx m e
               /\ emin prec emax <= e)
  \/ binary_round_aux prec emax sx mx ex lx = S754_infinity sx.
Proof.
  intros Hm He. unfold binary_round_aux.
  destruct (shr_fexp_positive mx ex lx Hm He) as (H1 & H2 & _).
  destruct (shr_fexp prec emax mx ex lx) as [mrs' e'].
  cbn [fst snd] in H1, H2.
  pose proof (round_nearest_even_ge (shr_m mrs') (loc_of_shr_record mrs')) as Hr.
  remember (round_nearest_even (shr_m mrs') (loc_of_shr_record mrs')) as m2.
  pose proof (Zdigits2_mono _ _ H1 Hr) as Hd.
  destruct (shr_fexp_positive m2 e' loc_Exact ltac:(lia) ltac:(lia))
    as (H3 & _ & H4).
  destruct (shr_fexp prec emax m2 e' loc_Exact) as [mrs'' e''].
  cbn [fst snd] in H3, H4.
  destruct (shr_m mrs'') as [|m|m]; try lia.
  destruct (e'' <=? emax - prec); [left | right; reflexivity].
  exists m, e''. split; [reflexivity | exact H4].
Qed.

Lemma digits2_pos_iter_xO (m d : positive) :
  Zpos (digits2_pos (Pos.iter xO m d)) = Zpos (digits2_pos m) + Zpos d.
Proof.
  induction d as [|d IH] using Pos.peano_ind.
  - cbn [Pos.iter digits2_pos]. lia.
  - rewrite Pos.iter_succ. cbn [digits2_pos]. lia.
Qed.

Lemma binary_round_positive (sx : bool) (mx : positive) (ex : Z) :
  emin prec emax < Zpos (digits2_pos mx) + ex ->
  (exists m e, binary_round prec emax sx mx ex = S754_finite sx m e
               /\ emin prec emax <= e)
  \/ binary_round prec emax sx mx ex = S754_infinity sx.
Proof.
  intros He. unfold binary_round, shl_align.
  destruct (fexp prec emax (Zpos (digits2_pos mx) + ex) - ex) as [|d|d] eqn:Hd;
    try (apply binary_round_aux_positive; [lia | exact He]).
  apply binary_round_aux_positive; [lia|].
  cbn [Zdigits2]. rewrite digits2_pos_iter_xO.
  unfold fexp in *. lia.
Qed.








End Rounding.


(** [(double)] of a positive integer is a positive number or positive
    infinity. *)
Lemma double_of_ullong_positive (n : Z) :
  0 < n ->
  (exists m e, Float.double_of_ullong n = S754_finite false m e)
  \/ Float.double_of_ullong n = S754_infinity false.
Proof.
  intros Hn. destruct n as [|p|p]; try lia.
  unfold Float.double_of_ullong, binary_normalize.
  destruct (binary_round_positive 53 1024 ltac:(lia) false p 0)
    as [(m & e & H & _) | H].
  - unfold emin. lia.
  - left. now exists m, e.
  - now right.
Qed.

(** ** A timescale of zero *)

(** C5, as stated, fails: with a timescale of 0 and a duration of 5000 the
    run ends with status 0, nothing on standard error, and the quotient,
    positive infinity, on standard output. *)
Lemma zero_timescale_prints_infinity :
  let r := main 2 (Some v0_file_timescale_0) in
  status r = 0 /\ stderr r = [] /\ stdout r = Some (S754_infinity false) /\
  ~ (status r <> 0 /\ stdout r = None).
Proof.
  repeat split; try (vm_compute; reflexivity).
  intros [H _]. apply H. vm_compute. reflexivity.
Qed.

(** Division by a zero timescale: NaN when the duration is zero as well,
    positive infinity for every other duration. *)
Lemma len_sec_of_zero_timescale (len_unit : Z) :
  (len_unit = 0 -> len_sec_of len_unit 0 = S754_nan) /\
  (0 < len_unit -> len_sec_of len_unit 0 = S754_infinity false).
Proof.
  unfold len_sec_of, Float.double_div.
  change (Float.double_of_float (Float.float_of_ulong 0))
    with (S754_zero false).
  split.
  - intros ->. reflexivity.
  - intros Hpos.
    destruct (double_of_ullong_positive len_unit Hpos) as [(m & e & ->) | ->];
      reflexivity.
Qed.

Lemma read_fields_unsigned (version : Z) (g g' : FILE) (fields : Z * Z) :
  read_fields version g = Ret fields g' ->
  0 <= fst fields < 2 ^ 64 /\ 0 <= snd fields < 2 ^ 64.
Proof.
  assert (Hu : forall z, 0 <= to_ulong z < 2 ^ 64)
    by (intros z; unfold to_ulong; apply Z.mod_pos_bound; lia).
  unfold read_fields, bind.
  destruct (fread 4 g) as [buf g1 | c m g1]; [|discriminate].
  destruct (negb (Z.of_nat (length buf) =? 4)); [discriminate|].
  destruct (version =? 1).
  - destruct (fread 8 g1) as [b g2 | c m g2]; [|discriminate].
    destruct (negb (Z.of_nat (length b) =? 8)); [discriminate|].
    unfold ret. intros H. injection H as <- _. cbn [fst snd].
    split; [apply Hu | apply Hu].
  - destruct (fread 4 g1) as [b g2 | c m g2]; [|discriminate].
    destruct (negb (Z.of_nat (length b) =? 4)); [discriminate|].
    unfold ret. intros H. injection H as <- _. cbn [fst snd].
    split; [apply Hu | apply Hu].
Qed.

(** C5, amended.  There is no check of the timescale: when the size and
    signature checks pass, the header is found and its fields are read
    with a timescale of zero, the run divides by it, prints the quotient
    and ends with status 0 and nothing on standard error.  The duration
    read is not negative, and the quotient printed is NaN when it is zero
    and positive infinity otherwise. *)
Theorem zero_timescale_is_divided_by
    (argc : Z) (bytes : list byte) (f1 f2 f3 f4 : FILE)
    (version len_unit : Z) :
  2 <= argc ->
  MIN_SIZE <= Z.of_nat (length bytes) ->
  has_mp4_magic (mkFILE bytes (Z.of_nat (length bytes)) []) = Ret 1 f1 ->
  move_to_header (Z.of_nat (length bytes)) f1 = Ret 0 f2 ->
  read_version_and_skip f2 = Ret version f3 ->
  read_fields version f3 = Ret (0, len_unit) f4 ->
  main argc (Some bytes)
  = mkRun 0 (Some (len_sec_of len_unit 0)) [] (trace f4) /\
  0 <= len_unit /\
  (len_unit = 0 -> len_sec_of len_unit 0 = S754_nan) /\
  (0 < len_unit -> len_sec_of len_unit 0 = S754_infinity false).
Proof.
  intros Hargc Hsz Hmagic Hmove Hskip Hfields.
  split; [|split; [exact (proj1 (proj2 (read_fields_unsigned _ _ _ _ Hfields)))
                  | apply len_sec_of_zero_timescale]].
  unfold main, main_opened. cbn [option_map].
  destruct (Z.ltb_spec argc 2); [lia|].
  unfold bind at 1 2, ftell, ret at 1, fopen.
  rewrite (fseek_ok 0 SEEK_END _ (Z.of_nat (length bytes)))
    by (cbn [end_offset_of source]; lia).
  cbn [position trace source].
  change (negb (0 =? 0)) with false. cbv iota. cbn [app].
  destruct (Z.ltb_spec (Z.of_nat (length bytes)) MIN_SIZE); [lia|].
  rewrite Hmagic. change (1 =? 0) with false. cbv iota.
  unfold get_mp4_len, bind.
  rewrite Hmove. change (negb (0 =? 0)) with false. cbv beta iota.
  rewrite Hskip, Hfields. reflexivity.
Qed.

Lemma zero_timescale_is_divided_by_witness :
  main 2 (Some v0_file_timescale_0)
  = mkRun 0 (Some (len_sec_of 5000 0)) []
          [Read 4 8; Read 0 80; Getc 44; Read 56 4; Read 60 4] /\
  0 <= 5000 /\
  (5000 = 0 -> len_sec_of 5000 0 = S754_nan) /\
  (0 < 5000 -> len_sec_of 5000 0 = S754_infinity false).
Proof.
  pose (bytes := v0_file_timescale_0).
  pose (n := Z.of_nat (length bytes)).
  pose (o1 := has_mp4_magic (mkFILE bytes n [])).
  pose (o2 := move_to_header n (stream_of o1)).
  pose (o3 := read_version_and_skip (stream_of o2)).
  pose (o4 := read_fields 0 (stream_of o3)).
  apply (zero_timescale_is_divided_by 2 bytes
           (stream_of o1) (stream_of o2) (stream_of o3) (stream_of o4)
           0 5000).
  - lia.
  - vm_compute. discriminate.
  - apply returned_stream. vm_compute. reflexivity.
  - apply returned_stream. vm_compute. reflexivity.
  - apply returned_stream. vm_compute. reflexivity.
  - apply returned_stream. vm_compute. reflexivity.
Defined.

(** * Part IV: further properties of the locator *)

(** ** The number of blocks *)

(** [n_blocks] is the size divided by the block size, rounded up: 0 for an
    empty file, 1 up to 16384 bytes, 2 from 16385 on. *)
Theorem n_blocks_of_is_ceiling (fsize : Z) :
  0 <= fsize ->
  n_blocks_of fsize = (fsize + BLOCK_SIZE - 1) / BLOCK_SIZE /\
  (n_blocks_of fsize = 0 <-> fsize = 0) /\
  (n_blocks_of fsize = 1 <-> 1 <= fsize <= BLOCK_SIZE).
Proof.
  intros Hf. unfold n_blocks_of, BLOCK_SIZE.
  destruct (Z.gtb_spec (Z.rem fsize 16384) 0); repeat split; euclid.
Qed.

Lemma n_blocks_of_is_ceiling_witness :
  0 <= 16385 /\ n_blocks_of 16385 = 2.
Proof.
  assert (H : 0 <= 16385) by lia.
  split; [exact H|].
  rewrite (proj1 (n_blocks_of_is_ceiling 16385 H)). reflexivity.
Defined.

(** ** The exits of the locator *)

(** Called with the size of the file, as [main] calls it, [move_to_header]
    returns 0 or 1 to its caller and leaves the bytes of the file alone:
    the seeks and reads of its rounds all succeed, so [exit(21)] to
    [exit(24)] are not reached. *)
Theorem move_to_header_never_exits (f : FILE) :
  file_size f <= LLONG_MAX ->
  exists r f',
    move_to_header (file_size f) f = Ret r f' /\
    (r = 0 \/ r = 1) /\
    contents f' = contents f.
Proof.
  intros Hmax.
  destruct (move_to_header_spec f Hmax) as (r & f' & k & Hrun & Hc & _ & _ & Hr).
  exists r, f'. split; [exact Hrun|]. split; [|exact Hc].
  destruct Hr as [[-> _] | [-> _]]; auto.
Qed.

Lemma move_to_header_never_exits_witness :
  let f := fopen (zeros 40000) in
  file_size f <= LLONG_MAX /\
  exists r f',
    move_to_header (file_size f) f = Ret r f' /\
    (r = 0 \/ r = 1) /\
    contents f' = contents f.
Proof.
  intros f.
  assert (H : file_size f <= LLONG_MAX) by (vm_compute; discriminate).
  split; [exact H | exact (move_to_header_never_exits f H)].
Defined.

(** ** The cursor after a match *)

(** A round that reports the header leaves the cursor inside the file. *)
Lemma scan_block_cursor_in_file (f f' : FILE) (xx : Z) :
  file_size f <= LLONG_MAX ->
  0 <= xx < n_blocks_of (file_size f) ->
  scan_block (file_size f) (n_blocks_of (file_size f)) xx f = Ret (Some 0) f' ->
  position f' <= file_size f.
Proof.
  intros Hmax Hx.
  assert (Hf : 0 <= file_size f) by (unfold file_size; lia).
  pose proof (block_start_in_file _ _ Hf Hx) as [Hs0 Hs1].
  destruct (scan_block_unfold f xx Hmax Hx)
    as (buf & f2 & Hbuf & Hlen & Hf2 & ->).
  remember (block_start (file_size f) xx) as start eqn:Hstart.
  remember (block_len (file_size f)) as blen eqn:Hblen.
  assert (Hb0 : 0 <= blen) by (rewrite Hblen; unfold block_len, BLOCK_SIZE; lia).
  assert (Hc2 : contents f2 = contents f) by (now rewrite Hf2).
  assert (Hp2 : position f2 = start + blen) by (now rewrite Hf2).
  clear Hf2.
  pose proof (search_block_spec buf 0 0 []) as Hsearch.
  destruct (search_block buf 0 0) as [jj | chars_matching].
  - destruct Hsearch as [Hjj _]; [lia | exists []; reflexivity |].
    unfold bind.
    rewrite (fseek_ok _ SEEK_CUR f2 (start + jj + 1)) by lia.
    change (negb (0 =? 0)) with false. cbv beta iota. unfold ret.
    intros Hret. injection Hret as <-. cbn [position]. lia.
  - destruct Hsearch as [Hcm _]; [lia | exists []; reflexivity |].
    unfold bind at 1.
    destruct (Z.gtb_spec chars_matching 0) as [Hpos | Hzero].
    + destruct (check_remaining_spec 3 chars_matching f2)
        as (r & g & Hrun & Hc' & _ & Hr); [lia | lia | right; lia |].
      rewrite Hrun.
      destruct Hr as [-> | (-> & Hp' & Hbytes)]; [cbn; discriminate|].
      cbn. intros Hret. injection Hret as <-.
      apply (f_equal (@length byte)) in Hbytes.
      rewrite length_firstn, length_skipn in Hbytes.
      change (length hdr) with 4%nat in Hbytes.
      assert (Hun : Z.of_nat (length (unread f2))
                    = Z.max 0 (file_size f2 - position f2))
        by (apply length_unread; lia).
      assert (Hsz : file_size f2 = file_size f)
        by (unfold file_size; now rewrite Hc2).
      lia.
    + assert (chars_matching = 0) by lia. subst chars_matching.
      cbn. discriminate.
Qed.

Lemma scan_blocks_cursor_in_file (todo : nat) :
  forall (xx : Z) (f f' : FILE),
    file_size f <= LLONG_MAX ->
    0 <= xx ->
    xx + Z.of_nat todo = n_blocks_of (file_size f) ->
    scan_blocks todo (file_size f) (n_blocks_of (file_size f)) xx f = Ret 0 f' ->
    position f' <= file_size f.
Proof.
  induction todo as [|todo IH]; intros xx f f' Hmax Hxx Hn; [discriminate|].
  cbn [scan_blocks]. unfold bind.
  destruct (scan_block_spec f xx Hmax) as (r1 & f1 & Hrun & Hc1 & _ & Hr1);
    [lia|].
  rewrite Hrun.
  assert (Hsz : file_size f1 = file_size f)
    by (unfold file_size; now rewrite Hc1).
  destruct Hr1 as [-> | (-> & _)].
  - rewrite <- Hsz. intros Hrest.
    apply (IH (xx + 1) f1 f'); [rewrite Hsz; exact Hmax | lia | | exact Hrest].
    rewrite Hsz. lia.
  - unfold ret. intros Hret. injection Hret as <-.
    apply (scan_block_cursor_in_file f f1 xx Hmax); [lia | exact Hrun].
Qed.

Lemma move_to_header_cursor_in_file (f f' : FILE) :
  file_size f <= LLONG_MAX ->
  move_to_header (file_size f) f = Ret 0 f' ->
  position f' <= file_size f.
Proof.
  intros Hmax Hrun.
  assert (Hf : 0 <= file_size f) by (unfold file_size; lia).
  pose proof (n_blocks_of_bounds _ Hf) as (Hn & _ & _).
  apply (scan_blocks_cursor_in_file
           (Z.to_nat (n_blocks_of (file_size f))) 0 f f'); auto; lia.
Qed.

(** When [move_to_header] returns 0 the file is some bytes, the tag, and
    the rest, and the cursor stands on the first byte of the rest: the next
    read delivers the version byte. *)
Theorem move_to_header_zero_is_behind_tag (f f' : FILE) :
  file_size f <= LLONG_MAX ->
  move_to_header (file_size f) f = Ret 0 f' ->
  exists l r,
    contents f = l ++ hdr ++ r /\
    position f' = Z.of_nat (length l) + 4 /\
    unread f' = r.
Proof.
  intros Hmax Hrun.
  destruct (move_to_header_spec f Hmax)
    as (r0 & g & k & Hrun' & Hc & _ & _ & Hr).
  rewrite Hrun in Hrun'. injection Hrun' as <- <-.
  destruct Hr as [[H1 _] | (_ & Hp & l & Hl)]; [discriminate|].
  pose proof (move_to_header_cursor_in_file f f' Hmax Hrun) as Hin.
  exists l, (skipn (Z.to_nat (position f')) (contents f)).
  split.
  - rewrite app_assoc, <- Hl. symmetry. apply firstn_skipn.
  - split.
    + apply (f_equal (@length byte)) in Hl.
      rewrite length_firstn, length_app in Hl.
      change (length hdr) with 4%nat in Hl. unfold file_size in Hin. lia.
    + unfold unread. now rewrite Hc.
Qed.

Lemma move_to_header_zero_is_behind_tag_witness :
  let f := fopen (zeros (BLOCK_SIZE - 2) ++ hdr ++ zeros 100) in
  let o := move_to_header (file_size f) f in
  file_size f <= LLONG_MAX /\
  exists l r,
    contents f = l ++ hdr ++ r /\
    position (stream_of o) = Z.of_nat (length l) + 4.
Proof.
  intros f o.
  assert (Hmax : file_size f <= LLONG_MAX) by (vm_compute; discriminate).
  assert (Hrun : o = Ret 0 (stream_of o))
    by (apply returned_stream; vm_compute; reflexivity).
  split; [exact Hmax|].
  destruct (move_to_header_zero_is_behind_tag f (stream_of o) Hmax Hrun)
    as (l & r & Hc & Hp & _).
  exists l, r. split; [exact Hc | exact Hp].
Defined.

(** ** The cursor before the call *)

(** Every round seeks from the start or from the end of the file, never
    from the cursor: where the sniffer, or any caller, has left the cursor
    makes no difference to what [move_to_header] does on a file that is not
    empty. *)
Theorem move_to_header_ignores_cursor
    (bytes : list byte) (p p' : Z) (t : list io_event) :
  0 < Z.of_nat (length bytes) <= LLONG_MAX ->
  move_to_header (Z.of_nat (length bytes)) (mkFILE bytes p t)
  = move_to_header (Z.of_nat (length bytes)) (mkFILE bytes p' t).
Proof.
  intros [Hpos Hmax].
  pose proof (n_blocks_of_bounds (Z.of_nat (length bytes))) as (Hn & Hlo & Hhi);
    [lia|].
  assert (H1 : 1 <= n_blocks_of (Z.of_nat (length bytes)))
    by (unfold BLOCK_SIZE in *; lia).
  unfold move_to_header.
  destruct (Z.to_nat (n_blocks_of (Z.of_nat (length bytes)))) as [|n] eqn:Hto;
    [lia|].
  cbn [scan_blocks]. unfold bind.
  assert (Hround : forall q,
             scan_block (Z.of_nat (length bytes))
                        (n_blocks_of (Z.of_nat (length bytes))) 0
                        (mkFILE bytes q t)
             = scan_block (Z.of_nat (length bytes))
                          (n_blocks_of (Z.of_nat (length bytes))) 0
                          (mkFILE bytes 0 t)).
  { intros q.
    destruct (scan_block_unfold (mkFILE bytes q t) 0)
      as (buf & f2 & -> & _ & -> & Hq);
      [exact Hmax
      | change (file_size (mkFILE bytes q t)) with (Z.of_nat (length bytes));
        lia |].
    destruct (scan_block_unfold (mkFILE bytes 0 t) 0)
      as (buf' & g2 & -> & _ & -> & H0);
      [exact Hmax
      | change (file_size (mkFILE bytes 0 t)) with (Z.of_nat (length bytes));
        lia |].
    exact (eq_trans Hq (eq_sym H0)). }
  rewrite (Hround p), (Hround p'). reflexivity.
Qed.

Lemma move_to_header_ignores_cursor_witness :
  let bytes := file_with_m_before_tag in
  0 < Z.of_nat (length bytes) <= LLONG_MAX /\
  move_to_header (Z.of_nat (length bytes)) (mkFILE bytes 12 [Read 4 8])
  = move_to_header (Z.of_nat (length bytes)) (mkFILE bytes 0 [Read 4 8]).
Proof.
  intros bytes.
  assert (H : 0 < Z.of_nat (length bytes) <= LLONG_MAX)
    by (split; vm_compute; [reflexivity | discriminate]).
  split; [exact H|].
  exact (move_to_header_ignores_cursor bytes 12 0 [Read 4 8] H).
Defined.

(** ** How far the scan goes *)

(** The loop stops at the round that holds a tag behind a clean byte, if
    not before: from round [xx] it makes at most [target - xx + 1] block
    reads. *)
Lemma scan_blocks_reads_until (o : nat) (target : Z) (todo : nat) :
  forall (xx : Z) (f : FILE),
    file_size f <= LLONG_MAX ->
    0 <= xx ->
    xx + Z.of_nat todo = n_blocks_of (file_size f) ->
    xx <= target < n_blocks_of (file_size f) ->
    tag_at (contents f) o ->
    clean_before (contents f) o ->
    block_start (file_size f) target <= Z.of_nat o
    < block_start (file_size f) target + block_len (file_size f) ->
    exists f' k,
      scan_blocks todo (file_size f) (n_blocks_of (file_size f)) xx f
      = Ret 0 f' /\
      (1 <= k)%nat /\
      Z.of_nat k <= target - xx + 1 /\
      block_reads (trace f')
      = block_reads (trace f)
        ++ map (block_of (file_size f)) (rounds_from xx k).
Proof.
  induction todo as [|todo IH]; intros xx f Hmax Hxx Hn Ht Htag Hclean Ho;
    [lia|].
  cbn [scan_blocks]. unfold bind.
  destruct (scan_block_spec f xx Hmax) as (r1 & f1 & Hrun & Hc1 & Ht1 & Hr1);
    [lia|].
  assert (Hone : r1 = Some 0 ->
                 exists f' k,
                   match r1 with
                   | Some v => ret v
                   | None => scan_blocks todo (file_size f)
                               (n_blocks_of (file_size f)) (xx + 1)
                   end f1 = Ret 0 f' /\
                   (1 <= k)%nat /\
                   Z.of_nat k <= target - xx + 1 /\
                   block_reads (trace f')
                   = block_reads (trace f)
                     ++ map (block_of (file_size f)) (rounds_from xx k)).
  { intros ->. exists f1, 1%nat. split; [reflexivity|].
    split; [lia|]. split; [lia|]. exact Ht1. }
  rewrite Hrun.
  destruct (Z.eq_dec xx target) as [-> | Hne].
  - destruct (scan_block_finds_tag f target o) as [f' Hfound]; auto; [lia|].
    rewrite Hfound in Hrun. injection Hrun as <- <-. now apply Hone.
  - destruct Hr1 as [-> | (-> & _)]; [|now apply Hone].
    assert (Hsz : file_size f1 = file_size f)
      by (unfold file_size; now rewrite Hc1).
    destruct (IH (xx + 1) f1) as (f' & k & Hrest & Hk1 & Hk & Htr).
    + rewrite Hsz. exact Hmax.
    + lia.
    + rewrite Hsz. lia.
    + rewrite Hsz. lia.
    + now rewrite Hc1.
    + now rewrite Hc1.
    + rewrite Hsz. exact Ho.
    + rewrite Hsz in Hrest, Htr.
      exists f', (S k). split; [exact Hrest|]. split; [lia|]. split; [lia|].
      rewrite Htr, Ht1, <- app_assoc. reflexivity.
Qed.

(** A tag behind a clean byte, [i] whole blocks from the start of the file
    and [j] whole blocks from its end, is found after at most [2 i + 1]
    block reads when [i <= j] and at most [2 j + 2] otherwise: a header in
    the first block costs one read, a header in the last block two, whatever
    the size of the file. *)
Theorem move_to_header_reads_few_blocks (f : FILE) (o : nat) :
  file_size f <= LLONG_MAX ->
  tag_at (contents f) o ->
  clean_before (contents f) o ->
  let i := Z.of_nat o / BLOCK_SIZE in
  let j := (file_size f - 1 - Z.of_nat o) / BLOCK_SIZE in
  exists f' k,
    move_to_header (file_size f) f = Ret 0 f' /\
    (1 <= k)%nat /\
    Z.of_nat k <= (if i <=? j then 2 * i + 1 else 2 * j + 2) /\
    block_reads (trace f')
    = block_reads (trace f)
      ++ map (fun xx => (block_start (file_size f) xx,
                         Z.min BLOCK_SIZE (file_size f)))
             (rounds_from 0 k).
Proof.
  intros Hmax Htag Hclean i j.
  assert (Ho : 0 <= Z.of_nat o < file_size f).
  { unfold tag_at in Htag. apply (f_equal (@length byte)) in Htag.
    rewrite length_firstn, length_skipn in Htag. cbn [length hdr] in Htag.
    unfold file_size. lia. }
  assert (Hf : 0 <= file_size f) by lia.
  pose proof (n_blocks_of_bounds _ Hf) as (Hn & Hlo & Hhi).
  destruct (Z.eqb_spec (file_size f) 0) as [E0 | E0]; [lia|].
  cbn [Z.b2z] in Hlo.
  set (target := if i <=? j then 2 * i else 2 * j + 1).
  assert (Htarget : 0 <= target < n_blocks_of (file_size f) /\
                    block_start (file_size f) target <= Z.of_nat o
                    < block_start (file_size f) target
                      + block_len (file_size f)).
  { subst target i j. destruct (Z.leb_spec (Z.of_nat o / BLOCK_SIZE)
                       ((file_size f - 1 - Z.of_nat o) / BLOCK_SIZE)).
    - rewrite block_start_front. unfold block_len, BLOCK_SIZE in *. euclid.
    - rewrite block_start_back. unfold block_len, BLOCK_SIZE in *. euclid. }
  destruct Htarget as [Ht Hcov].
  destruct (scan_blocks_reads_until o target
              (Z.to_nat (n_blocks_of (file_size f))) 0 f)
    as (f' & k & Hrun & Hk1 & Hk & Htr); auto; try lia.
  exists f', k. split; [exact Hrun|]. split; [exact Hk1|]. split; [|exact Htr].
  subst target. destruct (i <=? j); lia.
Qed.

Lemma move_to_header_reads_few_blocks_witness :
  let f := fopen (zeros 40000 ++ hdr ++ zeros 100) in
  let o := move_to_header (file_size f) f in
  file_size f <= LLONG_MAX /\
  tag_at (contents f) (Z.to_nat 40000) /\
  exists k,
    (1 <= k <= 2)%nat /\
    block_reads (trace (stream_of o))
    = map (fun xx => (block_start (file_size f) xx,
                      Z.min BLOCK_SIZE (file_size f)))
          (rounds_from 0 k).
Proof.
  intros f o.
  assert (Hmax : file_size f <= LLONG_MAX) by (vm_compute; discriminate).
  assert (Htag : tag_at (contents f) (Z.to_nat 40000))
    by (vm_compute; reflexivity).
  assert (Hclean : clean_before (contents f) (Z.to_nat 40000)).
  { intros pre b Hb.
    assert (Hlast : last (firstn (Z.to_nat 40000) (contents f)) x00 = x00)
      by (vm_compute; reflexivity).
    rewrite Hb, last_last in Hlast. subst b.
    intros [H | [H | H]]; discriminate H. }
  split; [exact Hmax|]. split; [exact Htag|].
  destruct (move_to_header_reads_few_blocks f (Z.to_nat 40000) Hmax Htag Hclean)
    as (f' & k & Hrun & Hk1 & Hk & Htr).
  exists k. split.
  - split; [exact Hk1|].
    assert (Hb : (if Z.of_nat (Z.to_nat 40000) / BLOCK_SIZE
                     <=? (file_size f - 1 - Z.of_nat (Z.to_nat 40000))
                         / BLOCK_SIZE
                  then 2 * (Z.of_nat (Z.to_nat 40000) / BLOCK_SIZE) + 1
                  else 2 * ((file_size f - 1 - Z.of_nat (Z.to_nat 40000))
                            / BLOCK_SIZE) + 2) = 2)
      by (vm_compute; reflexivity).
    rewrite Hb in Hk. lia.
  - unfold o. rewrite Hrun. cbn [stream_of]. exact Htr.
Defined.

(** * Part V: further properties of the decoder *)

(** ** Where the decoder stops *)

Lemma read_version_and_skip_eq (f : FILE) (v : byte) (rest : list byte) :
  0 <= position f ->
  unread f = v :: rest ->
  read_version_and_skip f
  = Ret (u8 v) (mkStream (source f) (position f + 1 + skip_of (u8 v))
                       (trace f ++ [Getc (position f)])).
Proof.
  intros Hp Hu. unfold read_version_and_skip, bind, fgetc, skip_of.
  rewrite Hu.
  destruct (u8 v =? 1).
  - rewrite (fseek_ok 19 SEEK_CUR _ (position f + 1 + 19))
      by (cbn [position]; lia).
    reflexivity.
  - rewrite (fseek_ok 11 SEEK_CUR _ (position f + 1 + 11))
      by (cbn [position]; lia).
    reflexivity.
Qed.

(** [read_fields] on a stream with [n] bytes left. *)
Lemma read_fields_by_size (version : Z) (g : FILE) :
  0 <= position g ->
  let left := file_size g - position g in
  (left < 4 ->
   exists g', read_fields version g = Exit 33 "Problem reading file" g') /\
  (4 <= left < 4 + width_of version ->
   exists g', read_fields version g = Exit 34 "Problem reading file" g') /\
  (4 + width_of version <= left ->
   exists fields g',
     read_fields version g = Ret fields g' /\
     contents g' = contents g /\
     position g' = position g + 4 + width_of version).
Proof.
  intros Hp left. subst left.
  unfold read_fields, bind. rewrite fread_eq.
  pose proof (length_fread 4 g ltac:(lia) Hp) as Hl4.
  remember (firstn (Z.to_nat 4) (unread g)) as ts eqn:Hts.
  remember (Z.of_nat (length ts)) as n4 eqn:Hn4.
  remember (mkStream (source g) (position g + n4)
                   (trace g ++ [Read (position g) n4])) as g1 eqn:Hg1.
  assert (Hp1 : position g1 = position g + n4) by (now rewrite Hg1).
  assert (Hs1 : file_size g1 = file_size g) by (now rewrite Hg1).
  assert (Hc1 : contents g1 = contents g) by (now rewrite Hg1).
  clear Hg1.
  destruct (Z.eqb_spec n4 4) as [E4 | E4]; cbn [negb].
  - unfold width_of.
    destruct (version =? 1).
    + rewrite fread_eq.
      pose proof (length_fread 8 g1 ltac:(lia) ltac:(lia)) as Hl8.
      remember (Z.of_nat (length (firstn (Z.to_nat 8) (unread g1)))) as n8.
      rewrite Hp1, Hs1 in Hl8.
      destruct (Z.eqb_spec n8 8) as [E8 | E8]; cbn [negb].
      * repeat split; intros H; try lia.
        eexists; eexists. split; [reflexivity|]. cbn [position]; same_contents.
        split; [exact Hc1 | lia].
      * repeat split; intros H; try lia. eexists. reflexivity.
    + rewrite fread_eq.
      pose proof (length_fread 4 g1 ltac:(lia) ltac:(lia)) as Hl8.
      remember (Z.of_nat (length (firstn (Z.to_nat 4) (unread g1)))) as n8.
      rewrite Hp1, Hs1 in Hl8.
      destruct (Z.eqb_spec n8 4) as [E8 | E8]; cbn [negb].
      * repeat split; intros H; try lia.
        eexists; eexists. split; [reflexivity|]. cbn [position]; same_contents.
        split; [exact Hc1 | lia].
      * repeat split; intros H; try lia. eexists. reflexivity.
  - unfold width_of.
    repeat split; intros H; try (destruct (version =? 1); lia).
    eexists. reflexivity.
Qed.

(** Once the header is found and its version byte is there, the decoder
    succeeds exactly when the file holds the header up to the end of the
    duration field: 20 bytes from the version byte on for a version other
    than 1, 32 bytes for version 1.  A file that ends before the end of the
    timescale leaves through [exit(33)], one that ends inside the duration
    through [exit(34)]; [exit(31)] and [exit(32)] are not reached. *)
Theorem decoder_needs_whole_header (f : FILE) (v : byte) (rest : list byte) :
  0 <= position f ->
  unread f = v :: rest ->
  let timescale_at := position f + 1 + skip_of (u8 v) in
  let header_end := timescale_at + 4 + width_of (u8 v) in
  (file_size f < timescale_at + 4 ->
   exists g, decode_fields f = Exit 33 "Problem reading file" g) /\
  (timescale_at + 4 <= file_size f < header_end ->
   exists g, decode_fields f = Exit 34 "Problem reading file" g) /\
  (header_end <= file_size f ->
   exists fields g,
     decode_fields f = Ret fields g /\ position g = header_end).
Proof.
  intros Hp Hu timescale_at header_end. subst header_end timescale_at.
  unfold decode_fields, bind.
  rewrite (read_version_and_skip_eq f v rest Hp Hu).
  set (g := mkStream (source f) (position f + 1 + skip_of (u8 v))
                   (trace f ++ [Getc (position f)])).
  assert (Hpg : 0 <= position g)
    by (cbn [position g]; unfold skip_of; destruct (u8 v =? 1); lia).
  destruct (read_fields_by_size (u8 v) g Hpg) as (H33 & H34 & Hok).
  change (file_size g) with (file_size f) in *.
  change (position g) with (position f + 1 + skip_of (u8 v)) in *.
  repeat split; intros H.
  - apply H33. lia.
  - apply H34. lia.
  - destruct Hok as (fields & g' & Hrun & _ & Hpos); [lia|].
    exists fields, g'. split; [exact Hrun | lia].
Qed.

Lemma decoder_needs_whole_header_witness :
  let bytes := firstn 59 file_with_m_before_tag in
  let f := mkFILE bytes 44 [] in
  0 <= position f /\
  unread f = x00 :: skipn 45 bytes /\
  exists g, decode_fields f = Exit 33 "Problem reading file" g.
Proof.
  intros bytes f.
  assert (Hp : 0 <= position f) by (vm_compute; discriminate).
  assert (Hu : unread f = x00 :: skipn 45 bytes) by reflexivity.
  split; [exact Hp|]. split; [exact Hu|].
  apply (proj1 (decoder_needs_whole_header f x00 (skipn 45 bytes) Hp Hu)).
  vm_compute. reflexivity.
Defined.

(** A tag that ends the file: [fgetc] returns [EOF] and transfers
    nothing; [EOF] is not 1, so it is taken for a version other than 1 and
    the cursor is moved 11 bytes past the end; the read of the timescale
    there delivers no byte and the run leaves with [exit(33)]. *)
Theorem decoder_at_end_of_file (f : FILE) :
  0 <= position f ->
  unread f = [] ->
  read_version_and_skip f
  = Ret EOF (mkStream (source f) (position f + 11) (trace f)) /\
  EOF <> 1 /\
  decode_fields f
  = Exit 33 "Problem reading file"
         (mkStream (source f) (position f + 11)
            (trace f ++ [Read (position f + 11) 0])).
Proof.
  intros Hp Hu.
  assert (Hskip : read_version_and_skip f
                  = Ret EOF (mkStream (source f) (position f + 11) (trace f))).
  { unfold read_version_and_skip, bind, fgetc.
    rewrite Hu. cbv beta iota. change (EOF =? 1) with false. cbv beta iota.
    rewrite (fseek_ok 11 SEEK_CUR f (position f + 11)) by lia.
    reflexivity. }
  split; [exact Hskip|]. split; [discriminate|].
  unfold decode_fields, bind. rewrite Hskip.
  unfold read_fields, bind. rewrite fread_eq.
  assert (Hrest : unread (mkStream (source f) (position f + 11) (trace f)) = []).
  { rewrite (unread_shift f 11 (trace f) Hp) by lia. rewrite Hu. reflexivity. }
  rewrite Hrest. cbn [firstn length Z.of_nat position trace].
  change (negb (0 =? 4)) with true. cbv beta iota.
  rewrite Z.add_0_r. reflexivity.
Qed.

Lemma decoder_at_end_of_file_witness :
  let bytes := firstn 44 file_with_m_before_tag in
  let f := mkFILE bytes 44 [] in
  0 <= position f /\ unread f = [] /\
  decode_fields f
  = Exit 33 "Problem reading file" (mkFILE bytes 55 [Read 55 0]).
Proof.
  intros bytes f.
  assert (Hp : 0 <= position f) by (vm_compute; discriminate).
  assert (Hu : unread f = []) by reflexivity.
  split; [exact Hp|]. split; [exact Hu|].
  exact (proj2 (proj2 (decoder_at_end_of_file f Hp Hu))).
Defined.

(** ** The fields of a header in range *)

Lemma unread_behind (g : FILE) (a b : list byte) (t : list io_event) :
  0 <= position g ->
  unread g = a ++ b ->
  unread (mkStream (source g) (position g + Z.of_nat (length a)) t) = b.
Proof.
  unfold unread. cbn [position]; same_contents. intros Hp Hu.
  replace (Z.to_nat (position g + Z.of_nat (length a)))
    with (length a + Z.to_nat (position g))%nat by lia.
  rewrite <- skipn_skipn, Hu, skipn_app, skipn_all, Nat.sub_diag.
  reflexivity.
Qed.

(** A version-0 header (or any version other than 1) whose timescale and
    duration are below 2^31: the decoder returns exactly the two big-endian
    values stored, the duration in the low 32 bits of [len_unit]. *)
Theorem read_fields_version_0_exact
    (version : Z) (g : FILE) (t0 t1 t2 t3 d0 d1 d2 d3 : byte)
    (rest : list byte) :
  version <> 1 ->
  0 <= position g ->
  unread g = [t0; t1; t2; t3] ++ [d0; d1; d2; d3] ++ rest ->
  u8 t0 < 128 ->
  u8 d0 < 128 ->
  exists g',
    read_fields version g
    = Ret (be_uint [t0; t1; t2; t3], be_uint [d0; d1; d2; d3]) g' /\
    position g' = position g + 8 /\
    0 <= be_uint [t0; t1; t2; t3] < 2 ^ 31 /\
    0 <= be_uint [d0; d1; d2; d3] < 2 ^ 31.
Proof.
  intros Hv Hp Hu Ht Hd.
  unfold read_fields, bind. rewrite fread_eq, Hu.
  change (firstn (Z.to_nat 4) ([t0; t1; t2; t3] ++ [d0; d1; d2; d3] ++ rest))
    with [t0; t1; t2; t3].
  change (Z.of_nat (length [t0; t1; t2; t3])) with 4.
  change (negb (4 =? 4)) with false. cbv beta iota.
  destruct (Z.eqb_spec version 1) as [E | _]; [contradiction|].
  rewrite fread_eq.
  rewrite (unread_behind g [t0; t1; t2; t3] ([d0; d1; d2; d3] ++ rest) _ Hp Hu).
  change (firstn (Z.to_nat 4) ([d0; d1; d2; d3] ++ rest))
    with [d0; d1; d2; d3].
  change (Z.of_nat (length [d0; d1; d2; d3])) with 4.
  change (negb (4 =? 4)) with false. cbv beta iota. unfold ret.
  rewrite unit_per_sec_of_exact by exact Ht.
  change ([x00; x00; x00; x00] ++ [d0; d1; d2; d3])
    with [x00; x00; x00; x00; d0; d1; d2; d3].
  rewrite len_unit_of_exact by exact Hd.
  assert (Hlow : be_uint [x00; x00; x00; x00; d0; d1; d2; d3]
                 = be_uint [d0; d1; d2; d3]).
  { unfold be_uint. cbn [fold_left]. change (u8 x00) with 0. ring. }
  rewrite Hlow.
  eexists. split; [reflexivity|]. cbn [position].
  split; [lia|].
  unfold be_uint. cbn [fold_left]. bytes_in_range. lia.
Qed.

Lemma read_fields_version_0_exact_witness :
  let f := mkFILE (sample_file "ftypisom" []
                     (v0_header [x00; x00; x03; xe8] [x00; x00; x13; x88]))
                  56 [] in
  0 <= position f /\
  unread f = [x00; x00; x03; xe8] ++ [x00; x00; x13; x88] ++ repeat x00 16 /\
  exists g', read_fields 0 f = Ret (1000, 5000) g'.
Proof.
  intros f.
  assert (Hv : 0 <> 1) by discriminate.
  assert (Hp : 0 <= position f) by (vm_compute; discriminate).
  assert (Hu : unread f = [x00; x00; x03; xe8] ++ [x00; x00; x13; x88]
                          ++ repeat x00 16) by (vm_compute; reflexivity).
  assert (Ht : u8 x00 < 128) by (vm_compute; reflexivity).
  split; [exact Hp|]. split; [exact Hu|].
  destruct (read_fields_version_0_exact 0 f x00 x00 x03 xe8 x00 x00 x13 x88
              (repeat x00 16) Hv Hp Hu Ht Ht)
    as (g' & Hrun & _).
  exists g'. exact Hrun.
Defined.

(** A version-1 header whose timescale is below 2^31 and whose duration has
    bit 31 clear: the decoder returns exactly the 32-bit and the 64-bit
    big-endian values stored, durations of 2^32 units and more included. *)
Theorem read_fields_version_1_exact
    (g : FILE) (t0 t1 t2 t3 d0 d1 d2 d3 d4 d5 d6 d7 : byte)
    (rest : list byte) :
  0 <= position g ->
  unread g = [t0; t1; t2; t3] ++ [d0; d1; d2; d3; d4; d5; d6; d7] ++ rest ->
  u8 t0 < 128 ->
  u8 d4 < 128 ->
  exists g',
    read_fields 1 g
    = Ret (be_uint [t0; t1; t2; t3],
           be_uint [d0; d1; d2; d3; d4; d5; d6; d7]) g' /\
    position g' = position g + 12.
Proof.
  intros Hp Hu Ht Hd.
  unfold read_fields, bind. rewrite fread_eq, Hu.
  change (firstn (Z.to_nat 4)
            ([t0; t1; t2; t3] ++ [d0; d1; d2; d3; d4; d5; d6; d7] ++ rest))
    with [t0; t1; t2; t3].
  change (Z.of_nat (length [t0; t1; t2; t3])) with 4.
  change (negb (4 =? 4)) with false. cbv beta iota.
  change (1 =? 1) with true. cbv beta iota.
  rewrite fread_eq.
  rewrite (unread_behind g [t0; t1; t2; t3]
             ([d0; d1; d2; d3; d4; d5; d6; d7] ++ rest) _ Hp Hu).
  change (firstn (Z.to_nat 8) ([d0; d1; d2; d3; d4; d5; d6; d7] ++ rest))
    with [d0; d1; d2; d3; d4; d5; d6; d7].
  change (Z.of_nat (length [d0; d1; d2; d3; d4; d5; d6; d7])) with 8.
  change (negb (8 =? 8)) with false. cbv beta iota. unfold ret.
  rewrite unit_per_sec_of_exact by exact Ht.
  rewrite len_unit_of_exact by exact Hd.
  eexists. split; [reflexivity|]. cbn [position]. lia.
Qed.

Lemma read_fields_version_1_exact_witness :
  let f := mkFILE (sample_file "ftypisom" []
                     (v1_header [x00; x00; x03; xe8]
                        [x00; x00; x00; x01; x00; x00; x00; x00]))
                  64 [] in
  0 <= position f /\
  unread f = [x00; x00; x03; xe8]
             ++ [x00; x00; x00; x01; x00; x00; x00; x00] ++ repeat x00 16 /\
  exists g', read_fields 1 f = Ret (1000, 2 ^ 32) g'.
Proof.
  intros f.
  assert (Hp : 0 <= position f) by (vm_compute; discriminate).
  assert (Hu : unread f = [x00; x00; x03; xe8]
                          ++ [x00; x00; x00; x01; x00; x00; x00; x00]
                          ++ repeat x00 16) by (vm_compute; reflexivity).
  assert (Ht : u8 x00 < 128) by (vm_compute; reflexivity).
  split; [exact Hp|]. split; [exact Hu|].
  destruct (read_fields_version_1_exact f x00 x00 x03 xe8
              x00 x00 x00 x01 x00 x00 x00 x00 (repeat x00 16) Hp Hu Ht Ht)
    as (g' & Hrun & _).
  exists g'. exact Hrun.
Defined.

(** ** The sign of the result *)












(** * Part VI: further properties of the run *)

(** [main] on a file that opens, in terms of its stages. *)
Lemma main_on_file (argc : Z) (bytes : list byte) :
  2 <= argc ->
  let fsize := Z.of_nat (length bytes) in
  main argc (Some bytes)
  = if fsize <? MIN_SIZE then
      mkRun 3 None ["file size too small"%string] []
    else
      match has_mp4_magic (mkFILE bytes fsize []) with
      | Exit code msg f => mkRun code None [msg] (trace f)
      | Ret magic fptr =>
          if magic =? 0 then
            mkRun 4 None ["MP4 file format not valid"%string] (trace fptr)
          else
            match get_mp4_len fsize fptr with
            | Exit code msg f => mkRun code None [msg] (trace f)
            | Ret vlen f => mkRun 0 (Some vlen) [] (trace f)
            end
      end.
Proof.
  intros Hargc fsize. unfold main, main_opened. cbn [option_map].
  destruct (Z.ltb_spec argc 2); [lia|].
  unfold bind at 1 2, ftell, ret at 1, fopen.
  rewrite (fseek_ok 0 SEEK_END _ fsize)
    by (cbn [end_offset_of source]; lia).
  cbn [position trace source].
  change (negb (0 =? 0)) with false. cbv iota. cbn [app].
  reflexivity.
Qed.

(** The test of the magic number, on the eight bytes read. *)
Lemma magic_test (f : FILE) :
  12 <= file_size f ->
  (union_ull (signature_of f) =? 0x6D6F736970797466)
  || (union_ull (signature_of f) =? 0x3234706D70797466) = true
  <-> signature_of f = bytes_of "ftypisom"
      \/ signature_of f = bytes_of "ftypmp42".
Proof.
  intros Hsz. destruct (has_mp4_magic_unfold f Hsz) as [Hlen _].
  rewrite orb_true_iff, !Z.eqb_eq.
  split; intros [H | H]; [left | right | left | right];
    try (apply union_ull_inj; [rewrite Hlen; reflexivity | rewrite H; reflexivity]);
    rewrite H; reflexivity.
Qed.

(** ** A file that is not MP4 *)

(** A file of at least 51 bytes whose bytes 4 to 11 are neither "ftypisom"
    nor "ftypmp42" ends the run with status 4 and one message; nothing is
    printed, and the 8 bytes of the signature are all that was read: the
    file is not scanned. *)
Theorem main_rejects_other_signatures (argc : Z) (bytes : list byte) :
  2 <= argc ->
  MIN_SIZE <= Z.of_nat (length bytes) ->
  firstn 8 (skipn 4 bytes) <> bytes_of "ftypisom" ->
  firstn 8 (skipn 4 bytes) <> bytes_of "ftypmp42" ->
  main argc (Some bytes)
  = mkRun 4 None ["MP4 file format not valid"%string] [Read 4 8].
Proof.
  intros Hargc Hsz Hiso Hmp42.
  rewrite (main_on_file argc bytes Hargc). cbv zeta.
  destruct (Z.ltb_spec (Z.of_nat (length bytes)) MIN_SIZE); [lia|].
  set (f := mkFILE bytes (Z.of_nat (length bytes)) []).
  assert (H12 : 12 <= file_size f)
    by (unfold MIN_SIZE in Hsz; unfold file_size, contents; cbn [source f]; lia).
  destruct (has_mp4_magic_unfold f H12) as [_ Hrun]. rewrite Hrun.
  pose proof (magic_test f H12) as Htest.
  destruct ((union_ull (signature_of f) =? 0x6D6F736970797466)
            || (union_ull (signature_of f) =? 0x3234706D70797466)).
  - exfalso. destruct (proj1 Htest eq_refl) as [E | E];
      [apply Hiso | apply Hmp42]; exact E.
  - reflexivity.
Qed.

Lemma main_rejects_other_signatures_witness :
  let bytes := sample_file "ftypM4V " []
                 (v0_header [x00; x00; x03; xe8] [x00; x00; x13; x88]) in
  2 <= 2 /\ MIN_SIZE <= Z.of_nat (length bytes) /\
  main 2 (Some bytes)
  = mkRun 4 None ["MP4 file format not valid"%string] [Read 4 8].
Proof.
  intros bytes.
  assert (Hargc : 2 <= 2) by lia.
  assert (Hsz : MIN_SIZE <= Z.of_nat (length bytes))
    by (vm_compute; discriminate).
  split; [exact Hargc|]. split; [exact Hsz|].
  apply (main_rejects_other_signatures 2 bytes Hargc Hsz);
    vm_compute; discriminate.
Defined.

(** ** A file without the tag *)

(** A file with an accepted signature in which the four bytes [mvhd] occur
    nowhere: every block is read, and the run ends with
    "Could not find header." and status 30, printing nothing. *)
Theorem main_reports_missing_header (argc : Z) (bytes : list byte) :
  2 <= argc ->
  MIN_SIZE <= Z.of_nat (length bytes) <= LLONG_MAX ->
  firstn 8 (skipn 4 bytes) = bytes_of "ftypisom"
  \/ firstn 8 (skipn 4 bytes) = bytes_of "ftypmp42" ->
  (forall o, ~ tag_at bytes o) ->
  let r := main argc (Some bytes) in
  status r = 30 /\ stdout r = None /\
  stderr r = ["Could not find header."%string] /\
  block_reads (transfers r)
  = (4, 8) :: map (block_of (Z.of_nat (length bytes)))
                  (rounds_from 0 (Z.to_nat (n_blocks_of
                                              (Z.of_nat (length bytes))))).
Proof.
  intros Hargc [Hsz Hmax] Hsig Hnone r. subst r.
  rewrite (main_on_file argc bytes Hargc). cbv zeta.
  destruct (Z.ltb_spec (Z.of_nat (length bytes)) MIN_SIZE); [lia|].
  set (f := mkFILE bytes (Z.of_nat (length bytes)) []).
  assert (H12 : 12 <= file_size f)
    by (unfold MIN_SIZE in Hsz; unfold file_size, contents; cbn [source f]; lia).
  destruct (has_mp4_magic_unfold f H12) as [_ Hrun]. rewrite Hrun.
  rewrite (proj2 (magic_test f H12) Hsig).
  change (1 =? 0) with false. cbv iota.
  set (f1 := mkStream (source f) 12 (trace f ++ [Read 4 8])).
  unfold get_mp4_len, bind.
  destruct (move_to_header_spec f1 Hmax)
    as (r0 & f2 & k & Hmove & Hc & _ & Htr & Hr).
  change (file_size f1) with (Z.of_nat (length bytes)) in *.
  rewrite Hmove.
  destruct Hr as [[-> ->] | (_ & _ & l & Hl)].
  - change (negb (1 =? 0)) with true. cbv iota. unfold exit.
    cbn [status stdout stderr transfers]. repeat split. exact Htr.
  - exfalso. apply (Hnone (length l)). unfold tag_at.
    change (contents f1) with bytes in Hl.
    rewrite <- (firstn_skipn (Z.to_nat (position f2)) bytes), Hl.
    rewrite <- app_assoc, skipn_app, skipn_all, Nat.sub_diag.
    reflexivity.
Qed.

Lemma main_reports_missing_header_witness :
  let bytes := sample_file "ftypisom" []
                 (v0_header [x00; x00; x03; xe8] [x00; x00; x13; x88]) in
  let cut := firstn 40 bytes ++ zeros 60 in
  2 <= 2 /\ MIN_SIZE <= Z.of_nat (length cut) <= LLONG_MAX /\
  status (main 2 (Some cut)) = 30.
Proof.
  intros bytes cut.
  assert (Hargc : 2 <= 2) by lia.
  assert (Hsz : MIN_SIZE <= Z.of_nat (length cut) <= LLONG_MAX)
    by (split; vm_compute; discriminate).
  assert (Hsig : firstn 8 (skipn 4 cut) = bytes_of "ftypisom"
                 \/ firstn 8 (skipn 4 cut) = bytes_of "ftypmp42")
    by (left; vm_compute; reflexivity).
  assert (Hnone : forall o, ~ tag_at cut o).
  { intros o Htag.
    assert (Hall : forallb (fun b => negb (Byte.eqb b x64)) cut = true)
      by (vm_compute; reflexivity).
    rewrite forallb_forall in Hall.
    assert (Hin : In x64 cut).
    { unfold tag_at in Htag.
      rewrite <- (firstn_skipn o cut). apply in_or_app. right.
      rewrite <- (firstn_skipn 4 (skipn o cut)), Htag.
      apply in_or_app. left. cbn. auto. }
    specialize (Hall x64 Hin). discriminate Hall. }
  split; [exact Hargc|]. split; [exact Hsz|].
  exact (proj1 (main_reports_missing_header 2 cut Hargc Hsz Hsig Hnone)).
Defined.

(** ** The statuses of a run *)

Lemma read_version_and_skip_returns (f : FILE) :
  0 <= position f ->
  exists v g,
    read_version_and_skip f = Ret v g /\
    0 <= position g /\ contents g = contents f.
Proof.
  intros Hp. destruct (unread f) as [|b rest] eqn:Hu.
  - unfold read_version_and_skip, bind, fgetc. rewrite Hu.
    change (EOF =? 1) with false. cbv beta iota.
    rewrite (fseek_ok 11 SEEK_CUR f (position f + 11)) by lia.
    eexists; eexists. split; [reflexivity|]. cbn [position]; same_contents.
    split; [lia | reflexivity].
  - rewrite (read_version_and_skip_eq f b rest Hp Hu).
    eexists; eexists. split; [reflexivity|]. cbn [position]; same_contents.
    split; [unfold skip_of; destruct (u8 b =? 1); lia | reflexivity].
Qed.

Lemma read_fields_outcome (version : Z) (g : FILE) :
  0 <= position g ->
  (exists fields g', read_fields version g = Ret fields g') \/
  (exists c g', read_fields version g = Exit c "Problem reading file" g' /\
                (c = 33 \/ c = 34)).
Proof.
  intros Hp.
  destruct (read_fields_by_size version g Hp) as (H33 & H34 & Hok).
  destruct (Z_lt_le_dec (file_size g - position g) 4) as [Hlt | Hge].
  - right. destruct (H33 Hlt) as [g' Hrun]. exists 33, g'. auto.
  - destruct (Z_lt_le_dec (file_size g - position g) (4 + width_of version))
      as [Hlt | Hge'].
    + right. destruct H34 as [g' Hrun]; [lia|]. exists 34, g'. auto.
    + left. destruct (Hok Hge') as (fields & g' & Hrun & _).
      exists fields, g'. exact Hrun.
Qed.

(** [get_mp4_len] returns, or leaves with one of three statuses. *)
Lemma get_mp4_len_outcome (f : FILE) :
  file_size f <= LLONG_MAX ->
  (exists v f', get_mp4_len (file_size f) f = Ret v f') \/
  (exists c msg f', get_mp4_len (file_size f) f = Exit c msg f' /\
                    (c = 30 \/ c = 33 \/ c = 34)).
Proof.
  intros Hmax. unfold get_mp4_len, bind.
  destruct (move_to_header_spec f Hmax) as (r & f1 & k & Hmove & _ & _ & _ & Hr).
  rewrite Hmove.
  destruct Hr as [[-> _] | (-> & Hp & _)].
  - right. eexists; eexists; eexists. split; [reflexivity | auto].
  - change (negb (0 =? 0)) with false. cbv iota.
    destruct (read_version_and_skip_returns f1 Hp) as (v & f2 & Hskip & Hp2 & _).
    rewrite Hskip.
    destruct (read_fields_outcome v f2 Hp2)
      as [(fields & f3 & Hf) | (c & f3 & Hf & Hc)]; rewrite Hf.
    + left. eexists; eexists. reflexivity.
    + right. eexists; eexists; eexists. split; [reflexivity|].
      destruct Hc; auto.
Qed.

(** On a directory the read of the signature delivers nothing. *)
Lemma has_mp4_magic_directory (e p : Z) (t : list io_event) :
  has_mp4_magic (mkStream (Directory e) p t)
  = Exit 11 "Problem reading file" (mkStream (Directory e) 4 (t ++ [Read 4 0])).
Proof. reflexivity. Qed.

(** A run on a directory, which [fopen] accepts: status 3 when the seek to
    the end fails or reports less than [MIN_SIZE], status 11 otherwise. *)
Lemma main_on_directory (argc e : Z) :
  2 <= argc ->
  main_opened argc (Some (fopen_directory e))
  = if e <? 0 then
      mkRun 3 None ["problem accessing file"%string;
                    "file size too small"%string] []
    else if e <? MIN_SIZE then
      mkRun 3 None ["file size too small"%string] []
    else
      mkRun 11 None ["Problem reading file"%string] [Read 4 0].
Proof.
  intros Hargc. unfold main_opened.
  destruct (Z.ltb_spec argc 2); [lia|].
  unfold bind at 1 2, ftell, ret at 1, fopen_directory, fseek.
  cbn [end_offset_of source position trace].
  rewrite Z.add_0_r.
  destruct (Z.ltb_spec e 0) as [Hneg | Hpos].
  - reflexivity.
  - cbn [position trace]. change (negb (0 =? 0)) with false. cbv iota.
    destruct (Z.ltb_spec e MIN_SIZE); [reflexivity|].
    rewrite has_mp4_magic_directory. reflexivity.
Qed.

(** Whatever the arguments, a run on a path that names a regular file or
    cannot be opened ends with one of eight statuses: 0, 1 (no argument),
    2 (no file), 3 (too small), 4 (not MP4), 30 (no header), 33 or 34 (file
    ends inside the header); a number is printed exactly when the status
    is 0, and standard error is empty exactly then.  The statuses the
    source names for failing seeks, 10, 21, 22, 24, 31 and 32, and for
    short reads of the signature or of a block, 11 and 23, do not occur on
    a regular file of at most [LLONG_MAX] bytes.  On a directory the run ends with status 1, 3 or 11, and
    with 11, after a read of the signature that delivers nothing, whenever
    the seek to its end reports [MIN_SIZE] or more; nothing is printed. *)
Theorem main_statuses
    (argc : Z) (opened : option (list byte)) (end_offset : Z) :
  (forall bytes, opened = Some bytes -> Z.of_nat (length bytes) <= LLONG_MAX) ->
  let r := main argc opened in
  let d := main_opened argc (Some (fopen_directory end_offset)) in
  In (status r) [0; 1; 2; 3; 4; 30; 33; 34] /\
  (status r = 0 <-> stdout r <> None) /\
  (status r = 0 <-> stderr r = []) /\
  In (status d) [1; 3; 11] /\
  (2 <= argc -> MIN_SIZE <= end_offset ->
   status d = 11 /\ transfers d = [Read 4 0]) /\
  stdout d = None /\ stderr d <> [].
Proof.
  intros Hmax r d.
  assert (Hd : In (status d) [1; 3; 11] /\
               (2 <= argc -> MIN_SIZE <= end_offset ->
                status d = 11 /\ transfers d = [Read 4 0]) /\
               stdout d = None /\ stderr d <> []).
  { subst d. destruct (Z.ltb_spec argc 2) as [Hargc | Hargc].
    - unfold main_opened. destruct (Z.ltb_spec argc 2); [|lia].
      cbn. repeat split; try tauto; try discriminate; lia.
    - rewrite (main_on_directory argc end_offset Hargc).
      destruct (Z.ltb_spec end_offset 0);
        [|destruct (Z.ltb_spec end_offset MIN_SIZE)];
        cbn; repeat split; try tauto; try discriminate;
        unfold MIN_SIZE in *; lia. }
  subst r.
  destruct (Z.ltb_spec argc 2) as [Hargc | Hargc].
  { unfold main, main_opened. cbn [option_map]. destruct (Z.ltb_spec argc 2); [|lia].
    cbn. repeat split; try tauto; try discriminate; try apply Hd; congruence. }
  destruct opened as [bytes|].
  2:{ unfold main, main_opened. cbn [option_map]. destruct (Z.ltb_spec argc 2); [lia|].
      cbn. repeat split; try tauto; try discriminate; try apply Hd; congruence. }
  specialize (Hmax bytes eq_refl).
  rewrite (main_on_file argc bytes Hargc). cbv zeta.
  destruct (Z.ltb_spec (Z.of_nat (length bytes)) MIN_SIZE) as [Hsmall | Hsz].
  { cbn. repeat split; try tauto; try discriminate; try apply Hd; congruence. }
  set (f := mkFILE bytes (Z.of_nat (length bytes)) []).
  assert (H12 : 12 <= file_size f)
    by (unfold MIN_SIZE in Hsz; unfold file_size, contents; cbn [source f]; lia).
  destruct (has_mp4_magic_unfold f H12) as [_ Hrun]. rewrite Hrun.
  set (f1 := mkStream (source f) 12 (trace f ++ [Read 4 8])).
  destruct ((union_ull (signature_of f) =? 0x6D6F736970797466)
            || (union_ull (signature_of f) =? 0x3234706D70797466)).
  2:{ cbn. repeat split; try tauto; try discriminate; try apply Hd; congruence. }
  change (1 =? 0) with false. cbv iota.
  destruct (get_mp4_len_outcome f1 Hmax)
    as [(v & f2 & Hlen) | (c & msg & f2 & Hlen & Hc)];
    change (file_size f1) with (Z.of_nat (length bytes)) in Hlen;
    rewrite Hlen; cbn [status stdout stderr In].
  - repeat split; try tauto; try discriminate; try apply Hd; congruence.
  - destruct Hc as [-> | [-> | ->]];
      repeat split; try tauto; try discriminate; try apply Hd; try congruence.
Qed.

Lemma main_statuses_witness :
  let opened := Some (firstn 60 file_with_m_before_tag ++ hdr ++ zeros 10) in
  (forall bytes, opened = Some bytes -> Z.of_nat (length bytes) <= LLONG_MAX) /\
  status (main 2 opened) = 33 /\
  In (status (main 2 opened)) [0; 1; 2; 3; 4; 30; 33; 34] /\
  status (main_opened 2 (Some (fopen_directory LLONG_MAX))) = 11.
Proof.
  intros opened.
  assert (H : forall bytes, opened = Some bytes ->
                            Z.of_nat (length bytes) <= LLONG_MAX).
  { intros bytes E. injection E as <-. vm_compute. discriminate. }
  split; [exact H|]. split; [vm_compute; reflexivity|].
  destruct (main_statuses 2 opened LLONG_MAX H)
    as (Hin & _ & _ & _ & Hdir & _).
  split; [exact Hin|].
  apply Hdir; [lia | vm_compute; discriminate].
Defined.

(** ** What a successful run has read *)

Lemma read_fields_value (version : Z) (g g' : FILE) (fields : Z * Z) :
  0 <= position g ->
  read_fields version g = Ret fields g' ->
  fields = fields_of version (unread g).
Proof.
  intros Hp. unfold read_fields, bind. rewrite fread_eq.
  change (Z.to_nat 4) with 4%nat.
  destruct (Z.eqb_spec (Z.of_nat (length (firstn 4 (unread g)))) 4)
    as [E4 | E4]; cbn [negb]; [|discriminate].
  assert (Hrest : forall t,
             unread (mkStream (source g)
                       (position g + Z.of_nat (length (firstn 4 (unread g)))) t)
             = skipn 4 (unread g)).
  { intros t. rewrite E4. apply (unread_shift g 4 t Hp). lia. }
  unfold fields_of.
  destruct (version =? 1); rewrite fread_eq, Hrest.
  - change (Z.to_nat 8) with 8%nat.
    destruct (negb (Z.of_nat (length (firstn 8 (skipn 4 (unread g)))) =? 8));
      [discriminate|].
    unfold ret. intros H. injection H as <- _. reflexivity.
  - change (Z.to_nat 4) with 4%nat.
    destruct (negb (Z.of_nat (length (firstn 4 (skipn 4 (unread g)))) =? 4));
      [discriminate|].
    unfold ret. intros H. injection H as <- _. reflexivity.
Qed.

(** A run that ends with status 0 has found the tag in a file with an
    accepted signature, behind it a version byte [v] and the whole header
    up to the end of the duration, and has printed the quotient of the two
    fields decoded from the bytes at the offsets the version selects. *)
Theorem main_success_prints_decoded_header (argc : Z) (bytes : list byte) :
  Z.of_nat (length bytes) <= LLONG_MAX ->
  status (main argc (Some bytes)) = 0 ->
  (firstn 8 (skipn 4 bytes) = bytes_of "ftypisom"
   \/ firstn 8 (skipn 4 bytes) = bytes_of "ftypmp42") /\
  exists l v rest,
    bytes = l ++ hdr ++ v :: rest /\
    skip_of (u8 v) + 4 + width_of (u8 v) <= Z.of_nat (length rest) /\
    let fields :=
      fields_of (u8 v) (skipn (Z.to_nat (skip_of (u8 v))) rest) in
    stdout (main argc (Some bytes))
    = Some (len_sec_of (snd fields) (fst fields)).
Proof.
  intros Hmax.
  destruct (Z.ltb_spec argc 2) as [Hargc | Hargc].
  { unfold main, main_opened. cbn [option_map]. destruct (Z.ltb_spec argc 2); [|lia]. discriminate. }
  rewrite (main_on_file argc bytes Hargc). cbv zeta.
  destruct (Z.ltb_spec (Z.of_nat (length bytes)) MIN_SIZE) as [Hsmall | Hsz];
    [discriminate|].
  set (f := mkFILE bytes (Z.of_nat (length bytes)) []).
  assert (H12 : 12 <= file_size f)
    by (unfold MIN_SIZE in Hsz; unfold file_size, contents; cbn [source f]; lia).
  destruct (has_mp4_magic_unfold f H12) as [_ Hrun]. rewrite Hrun.
  pose proof (magic_test f H12) as Htest.
  set (f1 := mkStream (source f) 12 (trace f ++ [Read 4 8])).
  destruct ((union_ull (signature_of f) =? 0x6D6F736970797466)
            || (union_ull (signature_of f) =? 0x3234706D70797466));
    [|discriminate].
  change (1 =? 0) with false. cbv iota.
  unfold get_mp4_len, bind.
  destruct (move_to_header_spec f1 Hmax)
    as (r0 & f2 & k & Hmove & Hc2 & _ & _ & Hr).
  change (file_size f1) with (Z.of_nat (length bytes)) in *.
  rewrite Hmove.
  destruct Hr as [[-> _] | (-> & Hp2 & l & Hl)]; [discriminate|].
  change (negb (0 =? 0)) with false. cbv iota.
  pose proof (move_to_header_cursor_in_file f1 f2 Hmax Hmove) as Hin.
  change (file_size f1) with (Z.of_nat (length bytes)) in Hin.
  change (contents f1) with bytes in Hl, Hc2.
  assert (Hsplit : bytes = l ++ hdr ++ unread f2).
  { unfold unread. rewrite Hc2, app_assoc, <- Hl. symmetry.
    apply firstn_skipn. }
  destruct (unread f2) as [|v rest] eqn:Hu.
  - (* the tag ends the file *)
    unfold read_version_and_skip, bind, fgetc. rewrite Hu.
    change (EOF =? 1) with false. cbv beta iota.
    rewrite (fseek_ok 11 SEEK_CUR f2 (position f2 + 11)) by lia.
    change (negb (0 =? 0)) with false. cbv beta iota. unfold ret at 1.
    set (g := mkStream (source f2) (position f2 + 11) (trace f2)).
    destruct (read_fields_by_size EOF g) as (H33 & _ & _);
      [cbn [position g]; lia|].
    destruct H33 as [g' Hexit].
    { pose proof (length_unread f2 Hp2) as Hlen. rewrite Hu in Hlen.
      change (file_size g) with (file_size f2). cbn [position g length] in *.
      lia. }
    rewrite Hexit. discriminate.
  - rewrite (read_version_and_skip_eq f2 v rest Hp2 Hu).
    set (g := mkStream (source f2) (position f2 + 1 + skip_of (u8 v))
                     (trace f2 ++ [Getc (position f2)])).
    assert (Hskip : 0 <= skip_of (u8 v))
      by (unfold skip_of; destruct (u8 v =? 1); lia).
    assert (Hpg : 0 <= position g) by (cbn [position g]; lia).
    assert (Hug : unread g = skipn (Z.to_nat (skip_of (u8 v))) rest).
    { unfold g. rewrite <- Z.add_assoc.
      rewrite (unread_shift f2 (1 + skip_of (u8 v)) _ Hp2) by lia.
      rewrite Hu.
      replace (Z.to_nat (1 + skip_of (u8 v)))
        with (S (Z.to_nat (skip_of (u8 v)))) by lia.
      reflexivity. }
    destruct (read_fields_outcome (u8 v) g Hpg)
      as [(fields & g' & Hfields) | (c & g' & Hfields & Hc)]; rewrite Hfields;
      [|destruct Hc as [-> | ->]; discriminate].
    intros _. split; [apply Htest; reflexivity|].
    exists l, v, rest. split; [exact Hsplit|]. split.
    + destruct (read_fields_by_size (u8 v) g Hpg) as (H33 & H34 & _).
      pose proof (length_unread f2 Hp2) as Hlen. rewrite Hu in Hlen.
      cbn [length] in Hlen.
      change (file_size g) with (file_size f2) in *.
      cbn [position g] in *.
      destruct (Z_lt_le_dec (file_size f2 - (position f2 + 1 + skip_of (u8 v))) 4)
        as [Hlt | Hge].
      { destruct (H33 Hlt) as [g'' Hx]. rewrite Hx in Hfields. discriminate. }
      destruct (Z_lt_le_dec (file_size f2 - (position f2 + 1 + skip_of (u8 v)))
                            (4 + width_of (u8 v))) as [Hlt | Hge'].
      { destruct H34 as [g'' Hx]; [lia|]. rewrite Hx in Hfields. discriminate. }
      lia.
    + cbv zeta. unfold ret. cbn [stdout].
      rewrite (read_fields_value (u8 v) g g' fields Hpg Hfields), Hug.
      reflexivity.
Qed.

Lemma main_success_prints_decoded_header_witness :
  let bytes := sample_file "ftypmp42" []
                 (v0_header [x00; x00; x03; xe8] [x00; x00; x13; x88]) in
  Z.of_nat (length bytes) <= LLONG_MAX /\
  status (main 2 (Some bytes)) = 0 /\
  exists l v rest, bytes = l ++ hdr ++ v :: rest.
Proof.
  intros bytes.
  assert (Hmax : Z.of_nat (length bytes) <= LLONG_MAX)
    by (vm_compute; discriminate).
  assert (Hok : status (main 2 (Some bytes)) = 0) by (vm_compute; reflexivity).
  split; [exact Hmax|]. split; [exact Hok|].
  destruct (main_success_prints_decoded_header 2 bytes Hmax Hok)
    as (_ & l & v & rest & Hsplit & _).
  exists l, v, rest. exact Hsplit.
Defined.
